(** * go-teamcity-report: a shallow embedding and its properties

    The program reads the output of [go test -v] line by line and prints
    TeamCity service messages.  Go strings are byte sequences, so they are
    modelled by [string] (a list of 8-bit [ascii]); the regular expressions
    and the [strings], [strconv], [unicode/utf8] and [fmt] functions the
    program calls are modelled by the functions of the Go library that they
    denote, each next to the place that uses it. *)

From Stdlib Require Import ZArith Lia Bool Ascii String List.
From Stdlib Require Import Floats.SpecFloat Numbers.DecimalString.
From stdpp Require Import base list.

Local Open Scope string_scope.
Local Open Scope Z_scope.

(** ** Bytes and UTF-8 decoding ([unicode/utf8]) *)

Module Utf8.

(** [s[i]] as a number. *)
Definition byte (c : ascii) : Z := Z.of_N (N_of_ascii c).

Definition RuneError : Z := 0xFFFD.
Definition RuneSelf : Z := 0x80.

(** Continuation bytes. *)
Definition locb : Z := 0x80.
Definition hicb : Z := 0xBF.
Definition maskx : Z := 0x3F.
Definition mask2 : Z := 0x1F.
Definition mask3 : Z := 0x0F.
Definition mask4 : Z := 0x07.

(** The table [first] together with [acceptRanges]: what a first byte
    announces. *)
Inductive firstInfo : Type :=
| FAscii
| FInvalid
| FLead (sz : nat) (lo hi : Z).

Definition first (b : Z) : firstInfo :=
  if b <? 0x80 then FAscii
  else if b <? 0xC2 then FInvalid
  else if b <? 0xE0 then FLead 2 locb hicb
  else if b =? 0xE0 then FLead 3 0xA0 hicb
  else if b <? 0xED then FLead 3 locb hicb
  else if b =? 0xED then FLead 3 locb 0x9F
  else if b <? 0xF0 then FLead 3 locb hicb
  else if b =? 0xF0 then FLead 4 0x90 hicb
  else if b <? 0xF4 then FLead 4 locb hicb
  else if b =? 0xF4 then FLead 4 locb 0x8F
  else FInvalid.

(** [utf8.DecodeRuneInString]: the first rune of [s] and its width in
    bytes; an invalid encoding is [RuneError] of width 1. *)
Definition DecodeRuneInString (s : string) : Z * nat :=
  match s with
  | EmptyString => (RuneError, 0%nat)
  | String c0 t =>
    let s0 := byte c0 in
    match first s0 with
    | FAscii => (s0, 1%nat)
    | FInvalid => (RuneError, 1%nat)
    | FLead sz lo hi =>
      if (String.length s <? sz)%nat then (RuneError, 1%nat) else
      match t with
      | EmptyString => (RuneError, 1%nat)
      | String c1 t1 =>
        let s1 := byte c1 in
        if (s1 <? lo) || (hi <? s1) then (RuneError, 1%nat) else
        if (sz <=? 2)%nat
        then (Z.lor (Z.shiftl (Z.land s0 mask2) 6) (Z.land s1 maskx), 2%nat)
        else
        match t1 with
        | EmptyString => (RuneError, 1%nat)
        | String c2 t2 =>
          let s2 := byte c2 in
          if (s2 <? locb) || (hicb <? s2) then (RuneError, 1%nat) else
          if (sz <=? 3)%nat
          then (Z.lor (Z.lor (Z.shiftl (Z.land s0 mask3) 12)
                             (Z.shiftl (Z.land s1 maskx) 6))
                      (Z.land s2 maskx), 3%nat)
          else
          match t2 with
          | EmptyString => (RuneError, 1%nat)
          | String c3 _ =>
            let s3 := byte c3 in
            if (s3 <? locb) || (hicb <? s3) then (RuneError, 1%nat) else
            (Z.lor (Z.lor (Z.lor (Z.shiftl (Z.land s0 mask4) 18)
                                 (Z.shiftl (Z.land s1 maskx) 12))
                          (Z.shiftl (Z.land s2 maskx) 6))
                   (Z.land s3 maskx), 4%nat)
          end
        end
      end
    end
  end.

(** [s[:n]] and [s[n:]]. *)
Fixpoint take (n : nat) (s : string) : string :=
  match n, s with
  | S n', String c t => String c (take n' t)
  | _, _ => EmptyString
  end.

Fixpoint drop (n : nat) (s : string) : string :=
  match n, s with
  | S n', String _ t => drop n' t
  | _, _ => s
  end.

(** The runes of a string in order, each with the bytes that encode it:
    what a loop over [DecodeRuneInString] sees. *)
Fixpoint runes_fuel (fuel : nat) (s : string) : list (Z * string) :=
  match fuel with
  | O => []
  | S fuel' =>
    match s with
    | EmptyString => []
    | String c t =>
      let '(r, w) := DecodeRuneInString s in
      (r, String c (take (pred w) t)) :: runes_fuel fuel' (drop (pred w) t)
    end
  end.

Definition runes (s : string) : list (Z * string) :=
  runes_fuel (String.length s) s.

End Utf8.

(** ** Small string helpers *)

Definition LF : ascii := ascii_of_nat 10.
Definition CR : ascii := ascii_of_nat 13.

(** The longest prefix whose bytes satisfy [p], and what follows it. *)
Fixpoint span (p : ascii -> bool) (s : string) : string * string :=
  match s with
  | EmptyString => (EmptyString, EmptyString)
  | String c t =>
    if p c then let '(a, b) := span p t in (String c a, b)
    else (EmptyString, s)
  end.

(** [Some rest] when [s] is [pre] followed by [rest]. *)
Fixpoint stripPrefix (pre s : string) : option string :=
  match pre, s with
  | EmptyString, _ => Some s
  | String a pre', String b s' =>
    if Ascii.eqb a b then stripPrefix pre' s' else None
  | String _ _, EmptyString => None
  end.

Definition isEmpty (s : string) : bool :=
  match s with EmptyString => true | _ => false end.

(** The strings of a list one after the other. *)
Fixpoint cat (l : list string) : string :=
  match l with
  | [] => EmptyString
  | x :: xs => x ++ cat xs
  end.

(** ** Formatting verbs of [fmt] *)

Module Fmt.

Definition hexDigit (d : Z) : ascii :=
  match String.get (Z.to_nat d) "0123456789abcdef" with
  | Some c => c
  | None => "0"%char
  end.

Fixpoint hexDigits (fuel : nat) (v : Z) (acc : string) : string :=
  match fuel with
  | O => acc
  | S fuel' =>
    let acc' := String (hexDigit (v mod 16)) acc in
    if v / 16 =? 0 then acc' else hexDigits fuel' (v / 16) acc'
  end.

Fixpoint zeros (n : nat) : string :=
  match n with
  | O => EmptyString
  | S n' => String "0"%char (zeros n')
  end.

(** The verb [%04x] for a non-negative integer: lowercase hexadecimal,
    padded with zeros on the left to four digits. *)
Definition x04 (v : Z) : string :=
  let d := hexDigits (S (Z.to_nat (Z.log2 v))) v EmptyString in
  zeros (4 - String.length d) ++ d.

(** The verb [%d]. *)
Definition d (v : Z) : string := NilZero.string_of_int (Z.to_int v).

End Fmt.

(** ** The patterns of the program ([regexp])

    Each pattern is modelled by the function that Go's leftmost-first
    matching computes for it.  The classes [\s], [\S], [\d] and [.] are
    decided on single bytes: [\s] is [[\t\n\f\r ]], the members of [\s],
    [\d] and the newline are ASCII, and an ASCII byte is always a rune of
    its own, so a longest run of runes of [\S] (or [.]) is a longest run of
    bytes. *)

Module Regexp.

(** [\s] *)
Definition isSpace (c : ascii) : bool :=
  let b := Utf8.byte c in
  (b =? 9) || (b =? 10) || (b =? 12) || (b =? 13) || (b =? 32).

(** [\S] *)
Definition notSpace (c : ascii) : bool := negb (isSpace c).

(** [[\d.]] *)
Definition isDigitDot (c : ascii) : bool :=
  let b := Utf8.byte c in
  ((48 <=? b) && (b <=? 57)) || (b =? 46).

(** [.]: anything but a newline. *)
Definition notNewline (c : ascii) : bool := negb (Utf8.byte c =? 10).

(** [\s+(\S+)] at the start of [s]: the submatch of the group and the text
    after the match.  [\s+] takes the whole run of white space and [\S+] the
    whole run that follows; giving back part of either run leaves a piece
    that the next item cannot match, so there is nothing else to try. *)
Definition spacesThenToken (s : string) : option (string * string) :=
  let '(ws, r) := span isSpace s in
  if isEmpty ws then None else
  let '(tok, r') := span notSpace r in
  if isEmpty tok then None else Some (tok, r').

(** [cruftPattern = ^(PASS|FAIL)$], used through [MatchString]. *)
Definition cruftPattern (input : string) : bool :=
  String.eqb input "PASS" || String.eqb input "FAIL".

(** [testRunPattern = ^=== RUN\s+(\S+)], used through
    [FindStringSubmatch]: [match[1]]. *)
Definition testRunPattern (input : string) : option string :=
  match stripPrefix "=== RUN" input with
  | None => None
  | Some r =>
    match spacesThenToken r with
    | None => None
    | Some (m1, _) => Some m1
    end
  end.

(** The alternation [(PASS|FAIL|SKIP)] at the start of [s]. *)
Definition passFailSkip (s : string) : option (string * string) :=
  match stripPrefix "PASS" s with
  | Some r => Some ("PASS", r)
  | None =>
    match stripPrefix "FAIL" s with
    | Some r => Some ("FAIL", r)
    | None =>
      match stripPrefix "SKIP" s with
      | Some r => Some ("SKIP", r)
      | None => None
      end
    end
  end.

(** [testFinishPattern = ^--- (PASS|FAIL|SKIP):\s+(\S+) \(([\d.]+)s\)]:
    [(match[1], match[2], match[3])]. *)
Definition testFinishPattern (input : string)
  : option (string * string * string) :=
  match stripPrefix "--- " input with
  | None => None
  | Some r =>
    match passFailSkip r with
    | None => None
    | Some (m1, r1) =>
      match stripPrefix ":" r1 with
      | None => None
      | Some r2 =>
        match spacesThenToken r2 with
        | None => None
        | Some (m2, r3) =>
          match stripPrefix " (" r3 with
          | None => None
          | Some r4 =>
            let '(m3, r5) := span isDigitDot r4 in
            if isEmpty m3 then None else
            match stripPrefix "s)" r5 with
            | None => None
            | Some _ => Some (m1, m2, m3)
            end
          end
        end
      end
    end
  end.

(** The alternation [(ok|FAIL|\?)] at the start of [s]. *)
Definition okFailQuestion (s : string) : option (string * string) :=
  match stripPrefix "ok" s with
  | Some r => Some ("ok", r)
  | None =>
    match stripPrefix "FAIL" s with
    | Some r => Some ("FAIL", r)
    | None =>
      match stripPrefix "?" s with
      | Some r => Some ("?", r)
      | None => None
      end
    end
  end.

(** [packageFinishPattern = ^(ok|FAIL|\?)\s+(\S+)]:
    [(match[1], match[2])]. *)
Definition packageFinishPattern (input : string) : option (string * string) :=
  match okFailQuestion input with
  | None => None
  | Some (m1, r) =>
    match spacesThenToken r with
    | None => None
    | Some (m2, _) => Some (m1, m2)
    end
  end.

(** [specialCharsPattern = \n|\r|\[|\]|\||'] as a class of runes. *)
Definition specialCharsPattern (r : Z) : bool :=
  (r =? 10) || (r =? 13) || (r =? 91) || (r =? 93) || (r =? 124) || (r =? 39).

(** [nonAsciiCharsPattern = [\x00-\x20]|[\x80-\x{ffff}]] as a class of
    runes. *)
Definition nonAsciiCharsPattern (r : Z) : bool :=
  ((0 <=? r) && (r <=? 0x20)) || ((0x80 <=? r) && (r <=? 0xFFFF)).

(** [ReplaceAllStringFunc] for a pattern that matches exactly one rune of
    a class: every rune of the class is replaced by [repl] of its bytes, the
    others are copied. *)
Definition ReplaceAllStringFunc (cls : Z -> bool) (src : string)
    (repl : string -> string) : string :=
  cat (map (fun '(r, m) => if cls r then repl m else m) (Utf8.runes src)).

(** [(?m)Error:\s+(.+)$] at the start of [s].  After [Error:], [\s+] first
    takes the whole run of [k] white-space bytes and then gives them back
    one at a time; with [j] of them taken, [(.+)$] takes the bytes up to the
    next newline (or the end) and needs at least one. *)
Fixpoint errorTail (j : nat) (r : string) : option string :=
  match j with
  | O => None
  | S j' =>
    let body := fst (span notNewline (Utf8.drop j r)) in
    if isEmpty body then errorTail j' r
    else Some (Utf8.take j r ++ body)
  end.

Definition errorHere (s : string) : option string :=
  match stripPrefix "Error:" s with
  | None => None
  | Some r =>
    match errorTail (String.length (fst (span isSpace r))) r with
    | None => None
    | Some m => Some ("Error:" ++ m)
    end
  end.

(** [regexp.MustCompile(`(?m)Error:\s+(.+)$`).FindString]: the match at
    the leftmost position that has one, the empty string when there is
    none. *)
Fixpoint errorPattern_FindString (s : string) : string :=
  match errorHere s with
  | Some m => m
  | None =>
    match s with
    | EmptyString => EmptyString
    | String _ t => errorPattern_FindString t
    end
  end.

End Regexp.

(** ** [unicode.IsSpace] and the functions of [strings] *)

Module Strings.

(** [unicode.IsSpace]: the Latin-1 spaces, else the [White_Space] table. *)
Definition IsSpace (r : Z) : bool :=
  if r <=? 0xFF then
    (r =? 9) || (r =? 10) || (r =? 11) || (r =? 12) || (r =? 13)
    || (r =? 32) || (r =? 0x85) || (r =? 0xA0)
  else
    (r =? 0x1680) || ((0x2000 <=? r) && (r <=? 0x200A))
    || (r =? 0x2028) || (r =? 0x2029) || (r =? 0x202F)
    || (r =? 0x205F) || (r =? 0x3000).

(** [strings.Join(a, sep)]. *)
Definition Join (a : list string) (sep : string) : string :=
  String.concat sep a.

(** [strings.Split(s, sep)] for a separator of one byte. *)
Fixpoint Split (s : string) (sep : ascii) : list string :=
  match s with
  | EmptyString => [EmptyString]
  | String c t =>
    if Ascii.eqb c sep then EmptyString :: Split t sep
    else
      match Split t sep with
      | [] => [String c EmptyString]
      | x :: xs => String c x :: xs
      end
  end.

(** [s[i]], zero out of range (the callers stay in range). *)
Definition at_ (s : string) (i : Z) : Z :=
  if i <? 0 then 0 else
  match String.get (Z.to_nat i) s with
  | Some c => Utf8.byte c
  | None => 0
  end.

(** [utf8.RuneStart]. *)
Definition RuneStart (b : Z) : bool := negb (Z.land b 0xC0 =? 0x80).

(** The backwards loop of [DecodeLastRuneInString]:
    [for start--; start >= lim; start-- { if RuneStart(s[start]) { break } }]
    entered with [start] already decremented. *)
Fixpoint lookBack (fuel : nat) (s : string) (start lim : Z) : Z :=
  match fuel with
  | O => start
  | S fuel' =>
    if start <? lim then start
    else if RuneStart (at_ s start) then start
    else lookBack fuel' s (start - 1) lim
  end.

(** [utf8.DecodeLastRuneInString]. *)
Definition DecodeLastRuneInString (s : string) : Z * nat :=
  let end_ := Z.of_nat (String.length s) in
  if end_ =? 0 then (Utf8.RuneError, 0%nat) else
  let start := end_ - 1 in
  let r := at_ s start in
  if r <? Utf8.RuneSelf then (r, 1%nat) else
  let lim := if end_ - 4 <? 0 then 0 else end_ - 4 in
  let start := lookBack 4 s (start - 1) lim in
  let start := if start <? 0 then 0 else start in
  let '(r, size) := Utf8.DecodeRuneInString (Utf8.drop (Z.to_nat start) s) in
  if start + Z.of_nat size =? end_ then (r, size) else (Utf8.RuneError, 1%nat).

(** [indexFunc(s, f, false)]: the index of the first rune that does not
    satisfy [f], [-1] when there is none; [i] is the index of [s] in the
    whole string. *)
Fixpoint indexFunc (fuel : nat) (s : string) (f : Z -> bool) (i : Z) : Z :=
  match fuel with
  | O => -1
  | S fuel' =>
    match s with
    | EmptyString => -1
    | String _ _ =>
      let '(r, w) := Utf8.DecodeRuneInString s in
      if f r then indexFunc fuel' (Utf8.drop w s) f (i + Z.of_nat w)
      else i
    end
  end.

(** [strings.TrimLeftFunc]. *)
Definition TrimLeftFunc (s : string) (f : Z -> bool) : string :=
  let i := indexFunc (String.length s) s f 0 in
  if i =? -1 then EmptyString else Utf8.drop (Z.to_nat i) s.

(** [lastIndexFunc(s, f, false)]:
    [for i := len(s); i > 0; { r, size := DecodeLastRuneInString(s[0:i]);
    i -= size; if !f(r) { return i } }; return -1]. *)
Fixpoint lastIndexFunc (fuel : nat) (s : string) (f : Z -> bool) (i : Z) : Z :=
  match fuel with
  | O => -1
  | S fuel' =>
    if i >? 0 then
      let '(r, size) := DecodeLastRuneInString (Utf8.take (Z.to_nat i) s) in
      let i := i - Z.of_nat size in
      if f r then lastIndexFunc fuel' s f i else i
    else -1
  end.

(** [strings.TrimRightFunc]. *)
Definition TrimRightFunc (s : string) (f : Z -> bool) : string :=
  let i := lastIndexFunc (S (String.length s)) s f
             (Z.of_nat (String.length s)) in
  let i :=
    if (i >=? 0) && (at_ s i >=? Utf8.RuneSelf)
    then i + Z.of_nat (snd (Utf8.DecodeRuneInString (Utf8.drop (Z.to_nat i) s)))
    else i + 1 in
  Utf8.take (Z.to_nat i) s.

(** [strings.TrimSpace(s)], that is [TrimFunc(s, unicode.IsSpace)]. *)
Definition TrimSpace (s : string) : string :=
  TrimRightFunc (TrimLeftFunc s IsSpace) IsSpace.

End Strings.

(** ** [strconv.ParseFloat(s, 32)] *)

Module Strconv.

Inductive NumError : Type := ErrSyntax | ErrRange.

(** The digits and the point of a decimal literal, as [readFloat] scans
    them: the digits read as one integer, how many of them follow the
    point, whether a point and a digit were seen, and the text left over.
    A second point stops the scan. *)
Record scanned : Type := mkScanned {
  mantissa : Z;
  fracDigits : nat;
  sawdot : bool;
  sawdigits : bool;
  rest : string
}.

Fixpoint readDigits (s : string) (acc : scanned) : scanned :=
  match s with
  | EmptyString =>
    mkScanned (mantissa acc) (fracDigits acc) (sawdot acc) (sawdigits acc) s
  | String c t =>
    let b := Utf8.byte c in
    if b =? 46 then
      if sawdot acc
      then mkScanned (mantissa acc) (fracDigits acc) true (sawdigits acc) s
      else readDigits t
             (mkScanned (mantissa acc) (fracDigits acc) true (sawdigits acc) t)
    else if (48 <=? b) && (b <=? 57) then
      readDigits t
        (mkScanned (10 * mantissa acc + (b - 48))
                   (if sawdot acc then S (fracDigits acc) else fracDigits acc)
                   (sawdot acc) true t)
    else
      mkScanned (mantissa acc) (fracDigits acc) (sawdot acc) (sawdigits acc) s
  end.

(** binary32 and binary64 *)
Definition prec32 : Z := 24.
Definition emax32 : Z := 128.
Definition prec64 : Z := 53.
Definition emax64 : Z := 1024.

Definition isInf (x : spec_float) : bool :=
  match x with S754_infinity _ => true | _ => false end.

(** The binary32 number nearest to [m / 10^k] (ties to even), infinite
    when that is out of range. *)
Definition nearest32 (m : Z) (k : nat) : spec_float :=
  match m with
  | Zpos p =>
    SFdiv prec32 emax32 (S754_finite false p 0)
          (S754_finite false (Z.to_pos (10 ^ Z.of_nat k)) 0)
  | _ => S754_zero false
  end.

(** [strconv.ParseFloat(s, 32)] on a literal made of digits and points,
    which is all that [[\d.]+] lets through: the value and the error.  The
    literal is well formed when it has a digit, at most one point and
    nothing else; the result is then the nearest binary32 number, and
    [+Inf] with [ErrRange] when that is out of range.  A literal that is
    not well formed gives 0 and [ErrSyntax]. *)
Definition ParseFloat32 (s : string) : spec_float * option NumError :=
  let sc := readDigits s (mkScanned 0 0 false false s) in
  if negb (sawdigits sc) || negb (isEmpty (rest sc))
  then (S754_zero false, Some ErrSyntax)
  else
    let f := nearest32 (mantissa sc) (fracDigits sc) in
    if isInf f then (f, Some ErrRange) else (f, None).

(** [x * 1000] in binary64. *)
Definition mul1000 (x : spec_float) : spec_float :=
  SFmul prec64 emax64 x (S754_finite false 1000 0).

Definition minInt64 : Z := - 2 ^ 63.

(** The conversion [int(x)] of a binary64 number: the fraction is
    discarded.  Out of the range of [int] the language leaves the value to
    the implementation; amd64 gives the least [int64]. *)
Definition int (x : spec_float) : Z :=
  match x with
  | S754_zero _ => 0
  | S754_finite s m e =>
    let v := cond_Zopp s (Z.shiftl (Zpos m) e) in
    if (minInt64 <=? v) && (v <? 2 ^ 63) then v else minInt64
  | _ => minInt64
  end.

End Strconv.

(** ** The program *)

(** [type testResult struct]. *)
Record testResult : Type := mkTestResult {
  name : string;
  status : string;
  output : list string;
  durationSec : spec_float
}.

(** [escape]. *)
Definition specEscape (in_ : string) : string :=
  if String.eqb in_ (String LF EmptyString) then "|n"
  else if String.eqb in_ (String CR EmptyString) then "|r"
  else "|" ++ in_.

(** [in[0]] is the first byte of the match, which is never empty. *)
Definition unicodeEscape (in_ : string) : string :=
  match in_ with
  | EmptyString => EmptyString
  | String c _ => "|0x" ++ Fmt.x04 (Utf8.byte c)
  end.

Definition escape (input : string) : string :=
  let input :=
    Regexp.ReplaceAllStringFunc Regexp.specialCharsPattern input specEscape in
  Regexp.ReplaceAllStringFunc Regexp.nonAsciiCharsPattern input unicodeEscape.

(** The message of a failed test, as [flush] computes it. *)
Definition failureMessage (testOutput : string) : string :=
  let message := Regexp.errorPattern_FindString testOutput in
  if (String.length message =? 0)%nat
  then Strings.TrimSpace (hd EmptyString (Strings.Split testOutput LF))
  else message.

Definition newline : string := String LF EmptyString.

(** [(test *testResult) flush()]: what it prints. *)
Definition flush (test : testResult) : string :=
  let out :=
    "##teamcity[testStarted name='" ++ escape (name test)
      ++ "' captureStandardOutput='true']" ++ newline in
  let testOutput := Strings.Join (output test) newline in
  let out :=
    if (0 <? List.length (output test))%nat
    then out ++ testOutput ++ newline else out in
  let out :=
    if String.eqb (status test) "PASS" then out
    else if String.eqb (status test) "FAIL" then
      let message := failureMessage testOutput in
      out ++ "##teamcity[testFailed name='" ++ escape (name test)
          ++ "' message='" ++ escape message ++ "']" ++ newline
    else if String.eqb (status test) "SKIP" then
      out ++ "##teamcity[testIgnored name='" ++ escape (name test)
          ++ "']" ++ newline
    else out in
  out ++ "##teamcity[testFinished name='" ++ escape (name test)
      ++ "' duration='"
      ++ Fmt.d (Strconv.int (Strconv.mul1000 (durationSec test)))
      ++ "']" ++ newline.

(** The records live in a store and the program holds pointers to them:
    [packageTestBuffer] is a slice of pointers and [capturingTest] is a
    pointer (or nil) that may alias one of them.  A pointer is the index of
    its record in the store; a record is never freed. *)
Definition ptr : Type := nat.
Abbreviation store := (list testResult).

(** What a pointer of the program points to.  The pointers of the program
    come from [&testResult{...}], so the lookup cannot fail; the default is
    the zero value. *)
Definition zeroResult : testResult :=
  mkTestResult EmptyString EmptyString [] (S754_zero false).

Definition deref (h : store) (p : ptr) : testResult :=
  match h !! p with
  | Some t => t
  | None => zeroResult
  end.

(** [flushPackage]: what it prints. *)
Definition flushPackage (h : store) (name_ : string) (results : list ptr)
  : string :=
  "##teamcity[testSuiteStarted name='" ++ escape name_ ++ "']" ++ newline
  ++ cat (map (fun p => flush (deref h p)) results)
  ++ "##teamcity[testSuiteFinished name='" ++ escape name_ ++ "']" ++ newline.

(** [findTest]: the first pointer of [results] whose record has that
    name, or nil. *)
Fixpoint findTest (h : store) (name_ : string) (results : list ptr)
  : option ptr :=
  match results with
  | [] => None
  | test :: results' =>
    if String.eqb (name (deref h test)) name_ then Some test
    else findTest h name_ results'
  end.

(** The variables of [main], the store and what was printed so far. *)
Record state : Type := mkState {
  heap : store;
  packageTestBuffer : list ptr;
  capturingTest : option ptr;
  stdout : string
}.

Definition initial : state := mkState [] [] None EmptyString.

(** One turn of the loop either goes on or panics. *)
Inductive outcome : Type :=
| Running (st : state)
| Panicked (msg : string) (st : state).

Definition set_durationSec (d : spec_float) (t : testResult) : testResult :=
  mkTestResult (name t) (status t) (output t) d.
Definition set_status (s : string) (t : testResult) : testResult :=
  mkTestResult (name t) s (output t) (durationSec t).
Definition append_output (l : string) (t : testResult) : testResult :=
  mkTestResult (name t) (status t) (output t ++ [l])%list (durationSec t).

(** Assignment through a pointer: the record at [p] becomes [f] of it. *)
Definition modify (h : store) (p : ptr) (f : testResult -> testResult)
  : store :=
  <[p := f (deref h p)]> h.

(** The body of the loop of [main] for one line of input. *)
Definition step (st : state) (input : string) : outcome :=
  if Regexp.cruftPattern input then Running st
  else
  match Regexp.testRunPattern input with
  | Some m1 =>
    Running (mkState (heap st ++ [mkTestResult m1 EmptyString [] (S754_zero false)])%list
                     (packageTestBuffer st ++ [List.length (heap st)])%list
                     None
                     (stdout st))
  | None =>
  match Regexp.testFinishPattern input with
  | Some (m1, m2, m3) =>
    match findTest (heap st) m2 (packageTestBuffer st) with
    | None => Panicked "Run `go test` with -v" st
    | Some test =>
      let h := modify (heap st) test
                 (set_durationSec (fst (Strconv.ParseFloat32 m3))) in
      let h := modify h test (set_status m1) in
      Running (mkState h (packageTestBuffer st)
                 (if String.eqb (status (deref h test)) "FAIL"
                  then Some test else capturingTest st)
                 (stdout st))
    end
  | None =>
  match Regexp.packageFinishPattern input with
  | Some (_, m2) =>
    Running (mkState (heap st) [] None
               (stdout st ++ flushPackage (heap st) m2 (packageTestBuffer st)))
  | None =>
  match capturingTest st with
  | Some test =>
    Running (mkState (modify (heap st) test (append_output input))
               (packageTestBuffer st) (capturingTest st) (stdout st))
  | None =>
    Running (mkState (heap st) (packageTestBuffer st) (capturingTest st)
               (stdout st ++ input ++ newline))
  end end end end.

(** The loop of [main] over the lines the scanner delivers. *)
Fixpoint loop (lines : list string) (st : state) : outcome :=
  match lines with
  | [] => Running st
  | input :: lines' =>
    match step st input with
    | Running st' => loop lines' st'
    | Panicked msg st' => Panicked msg st'
    end
  end.

Definition main (lines : list string) : outcome := loop lines initial.

(** * Definitions used to state the properties *)

(** ** Lines, as the loop takes them *)

Definition testStartedLine (input name_ : string) : Prop :=
  Regexp.cruftPattern input = false /\
  Regexp.testRunPattern input = Some name_.

Definition testFinishedLine (input status_ name_ literal : string) : Prop :=
  Regexp.cruftPattern input = false /\
  Regexp.testRunPattern input = None /\
  Regexp.testFinishPattern input = Some (status_, name_, literal).

Definition packageFinishedLine (input pkg : string) : Prop :=
  Regexp.cruftPattern input = false /\
  Regexp.testRunPattern input = None /\
  Regexp.testFinishPattern input = None /\
  exists verdict, Regexp.packageFinishPattern input = Some (verdict, pkg).

(** The line is none of the four shapes of line the loop looks for. *)
Definition unclassified (input : string) : Prop :=
  Regexp.cruftPattern input = false /\
  Regexp.testRunPattern input = None /\
  Regexp.testFinishPattern input = None /\
  Regexp.packageFinishPattern input = None.

(** The names of the tests whose start line came after the last package
    line, in the order of the start lines. *)
Fixpoint startedNames (lines : list string) (acc : list string) : list string :=
  match lines with
  | [] => acc
  | l :: ls =>
    if Regexp.cruftPattern l then startedNames ls acc
    else
    match Regexp.testRunPattern l with
    | Some n => startedNames ls (acc ++ [n])%list
    | None =>
    match Regexp.testFinishPattern l with
    | Some _ => startedNames ls acc
    | None =>
    match Regexp.packageFinishPattern l with
    | Some _ => startedNames ls []
    | None => startedNames ls acc
    end end end
  end.

(** The names of the records of the buffer, in its order. *)
Definition bufferNames (st : state) : list string :=
  map (fun p => name (deref (heap st) p)) (packageTestBuffer st).

(** ** The service messages *)

Definition suiteStarted (pkg : string) : string :=
  "##teamcity[testSuiteStarted name='" ++ escape pkg ++ "']" ++ newline.

Definition suiteFinished (pkg : string) : string :=
  "##teamcity[testSuiteFinished name='" ++ escape pkg ++ "']" ++ newline.

Definition testStarted (n : string) : string :=
  "##teamcity[testStarted name='" ++ escape n
    ++ "' captureStandardOutput='true']" ++ newline.

Definition testFailed (n message : string) : string :=
  "##teamcity[testFailed name='" ++ escape n ++ "' message='"
    ++ escape message ++ "']" ++ newline.

Definition testIgnored (n : string) : string :=
  "##teamcity[testIgnored name='" ++ escape n ++ "']" ++ newline.

Definition testFinished (n : string) (ms : Z) : string :=
  "##teamcity[testFinished name='" ++ escape n ++ "' duration='"
    ++ Fmt.d ms ++ "']" ++ newline.

(** ** An invariant of the loop

    The pointers of the program point into the store; the test that
    captures has finished; a record that has not finished has no output and
    no duration. *)
Record valid (st : state) : Prop := {
  valid_buffer : forall p, In p (packageTestBuffer st) ->
    (p < length (heap st))%nat;
  valid_capturing : forall p, capturingTest st = Some p ->
    (p < length (heap st))%nat /\ status (deref (heap st) p) <> "";
  valid_pending : forall p, (p < length (heap st))%nat ->
    status (deref (heap st) p) = "" ->
    output (deref (heap st) p) = [] /\
    durationSec (deref (heap st) p) = S754_zero false
}.

(** ** Bytes of a string *)

Definition hiByte (c : ascii) : bool := 0x80 <=? Utf8.byte c.

Fixpoint allb (p : ascii -> bool) (s : string) : bool :=
  match s with
  | EmptyString => true
  | String c t => p c && allb p t
  end.

Fixpoint count (p : ascii -> bool) (s : string) : nat :=
  match s with
  | EmptyString => O
  | String c t => ((if p c then 1 else 0) + count p t)%nat
  end.

(** A string that is empty or starts with a byte outside [p]. *)
Definition stopsAt (p : ascii -> bool) (s : string) : Prop :=
  match s with
  | EmptyString => True
  | String c _ => p c = false
  end.

(** [strings.Contains]. *)
Fixpoint Contains (s substr : string) : bool :=
  match stripPrefix substr s with
  | Some _ => true
  | None =>
    match s with
    | EmptyString => false
    | String _ t => Contains t substr
    end
  end.

(** ** Escaping, rune by rune *)

(** Two continuations that agree up to their first ASCII byte. *)
Inductive sim : string -> string -> Prop :=
| sim_nil : sim "" ""
| sim_lo c c' t t' : hiByte c = false -> hiByte c' = false ->
    sim (String c t) (String c' t')
| sim_hi c t t' : hiByte c = true -> sim t t' -> sim (String c t) (String c t').

(** The first replacement of [escape], byte by byte. *)
Fixpoint escBytes (s : string) : string :=
  match s with
  | EmptyString => EmptyString
  | String c t =>
    (if Regexp.specialCharsPattern (Utf8.byte c)
     then specEscape (String c EmptyString) else String c EmptyString)
    ++ escBytes t
  end.

(** The second replacement of [escape] on one rune. *)
Definition nonAsciiPass (x : Z * string) : string :=
  let '(r, m) := x in
  if Regexp.nonAsciiCharsPattern r then unicodeEscape m else m.

Definition firstByte (m : string) : Z :=
  match m with
  | EmptyString => 0
  | String c _ => Utf8.byte c
  end.

(** What becomes of one rune [r] of the input, encoded by the bytes [m]:
    the six special characters get their escape, a rune of the class [cls]
    is written [|0xHHHH] from its first byte, any other rune is copied. *)
Definition escapeRune (cls : Z -> bool) (x : Z * string) : string :=
  let '(r, m) := x in
  if r =? 10 then "|n"
  else if r =? 13 then "|r"
  else if (r =? 91) || (r =? 93) || (r =? 124) || (r =? 39) then "|" ++ m
  else if cls r then "|0x" ++ Fmt.x04 (firstByte m)
  else m.

Definition escapeByRune (cls : Z -> bool) (s : string) : string :=
  cat (map (escapeRune cls) (Utf8.runes s)).

(** The runes that [escape] writes as [|0xHHHH]. *)
Definition escapedClass (r : Z) : bool :=
  ((0 <=? r) && (r <=? 0x20)) || ((0x80 <=? r) && (r <=? 0xFFFF)).

(** The same without an upper bound. *)
Definition unboundedClass (r : Z) : bool :=
  ((0 <=? r) && (r <=? 0x20)) || (0x80 <=? r).

(** ** The pattern of the failure message *)

(** [m] is a match of [Error:\s+(.+)$] (with the flag [m]) at the start of
    [s]: [Error:], some white space, then at least one byte and no
    newline, up to the end of a line. *)
Definition ErrorMatch (s m : string) : Prop :=
  exists ws body rest,
    s = m ++ rest /\
    m = "Error:" ++ ws ++ body /\
    ws <> "" /\ allb Regexp.isSpace ws = true /\
    body <> "" /\ allb Regexp.notNewline body = true /\
    stopsAt Regexp.notNewline rest.

(** [m] is a match at the leftmost place of [s] that has one. *)
Definition FirstErrorMatch (s m : string) : Prop :=
  exists pre post,
    s = pre ++ post /\ ErrorMatch post m /\
    forall pre' post' m',
      s = pre' ++ post' ->
      (String.length pre' < String.length pre)%nat ->
      ~ ErrorMatch post' m'.

Definition NoErrorMatch (s : string) : Prop :=
  forall pre post m, s = pre ++ post -> ~ ErrorMatch post m.

(** ** Duration literals *)

Definition isDigit (c : ascii) : bool :=
  (48 <=? Utf8.byte c) && (Utf8.byte c <=? 57).

Definition isDot (c : ascii) : bool := Utf8.byte c =? 46.

(** A literal that is not a decimal number: no digit, or two points. *)
Definition malformed (literal : string) : Prop :=
  count isDigit literal = 0%nat \/ (2 <= count isDot literal)%nat.

(** The duration attribute the program prints for a literal. *)
Definition durationMs (literal : string) : Z :=
  Strconv.int (Strconv.mul1000 (fst (Strconv.ParseFloat32 literal))).

Definition digitValue (c : ascii) : option Z :=
  if isDigit c then Some (Utf8.byte c - 48) else None.

(** The hundredths of a literal of the form [D.DD]. *)
Definition hundredths (literal : string) : option Z :=
  match literal with
  | String a (String p (String b (String c EmptyString))) =>
    if isDot p then
      match digitValue a, digitValue b, digitValue c with
      | Some x, Some y, Some z => Some (100 * x + 10 * y + z)
      | _, _, _ => None
      end
    else None
  | _ => None
  end.

(** The duration that rounding [D.DD * 1000] would give. *)
Definition roundedMs (literal : string) : Z :=
  match hundredths literal with
  | Some n => 10 * n
  | None => 0
  end.

Definition digitChar (k : nat) : ascii := ascii_of_nat (48 + k).

Definition literalOf (i j k : nat) : string :=
  String (digitChar i) (String "."%char
    (String (digitChar j) (String (digitChar k) EmptyString))).

(** The duration of [i.jk] is [round(i.jk * 1000)] or one less. *)
Definition durationWithin (i j k : nat) : bool :=
  let n := Z.of_nat (100 * i + 10 * j + k) in
  let d := durationMs (literalOf i j k) in
  (10 * n - 1 <=? d) && (d <=? 10 * n).

(** ** A package whose tests all start, then all finish *)

(** A test as its finish line tells it. *)
Record testCase : Type := mkCase {
  caseName : string;
  caseStatus : string;
  caseLiteral : string
}.

(** The line of the status of a test that has no output. *)
Definition statusLine (t : testCase) : string :=
  if String.eqb (caseStatus t) "PASS" then ""
  else if String.eqb (caseStatus t) "FAIL" then testFailed (caseName t) ""
  else if String.eqb (caseStatus t) "SKIP" then testIgnored (caseName t)
  else "".

(** The block of a test that has no output, its duration given by [ms]. *)
Definition testBlock (ms : string -> Z) (t : testCase) : string :=
  testStarted (caseName t) ++ statusLine t
  ++ testFinished (caseName t) (ms (caseLiteral t)).

(** The record of a test that has started, and the one of a test that has
    finished without output. *)
Definition fresh (n : string) : testResult :=
  mkTestResult n "" [] (S754_zero false).

Definition finishedRecord (t : testCase) : testResult :=
  mkTestResult (caseName t) (caseStatus t) []
    (fst (Strconv.ParseFloat32 (caseLiteral t))).

(** What the finish line of [t] does to a record. *)
Definition applyCase (t : testCase) (r : testResult) : testResult :=
  if String.eqb (name r) (caseName t)
  then mkTestResult (name r) (caseStatus t) (output r)
         (fst (Strconv.ParseFloat32 (caseLiteral t)))
  else r.

(** ** Sample inputs *)

Definition TAB : string := String (ascii_of_nat 9) EmptyString.

Definition demoLines : list string :=
  ["=== RUN   TestA"; "=== RUN   TestB"; "--- PASS: TestB (0.01s)";
   "--- FAIL: TestA (0.02s)"].

(** The state after [demoLines]. *)
Definition demoState : state :=
  mkState
    [mkTestResult "TestA" "FAIL" [] (fst (Strconv.ParseFloat32 "0.02"));
     mkTestResult "TestB" "PASS" [] (fst (Strconv.ParseFloat32 "0.01"))]
    [0%nat; 1%nat] (Some 0%nat) "".

Definition demoPackageLine : string := "ok  " ++ TAB ++ "pkg" ++ TAB ++ "0.03s".

Definition demoCapturedLine : string :=
  "##teamcity[testFailed name='TestB' message='not a message']".

Definition pendingLines : list string :=
  ["=== RUN   TestA"; "=== RUN   TestB"; "--- PASS: TestB (0.01s)"].

Definition panicText : string := "Run `go test` with -v".

Definition orphanLine : string := "--- PASS: TestFoo (0.01s)".

Definition interleavedLines : list string :=
  ["=== RUN   TestA"; "=== RUN   TestB"; "--- FAIL: TestA (0.01s)";
   "--- PASS: TestB (0.02s)"].

Definition twoPointsLine : string := "--- PASS: TestB (1.2.3s)".

Definition hugeLiteral : string := "1000000000000000000000000000000000000000".

Definition hugeLine : string := "--- PASS: TestB (" ++ hugeLiteral ++ "s)".

Definition failedRecord : testResult :=
  mkTestResult "TestA" "FAIL"
    ["    a_test.go:8: unexpected value"; "    Error:  boom (code 3)"; "tail"]
    (fst (Strconv.ParseFloat32 "0.02")).

Definition suiteTests : list testCase :=
  [mkCase "TestA" "PASS" "0.29"; mkCase "TestB" "FAIL" "0.50";
   mkCase "TestC" "SKIP" "0.00"].

Definition suiteOrder : list testCase :=
  [mkCase "TestB" "FAIL" "0.50"; mkCase "TestC" "SKIP" "0.00";
   mkCase "TestA" "PASS" "0.29"].

Definition suiteStarts : list string :=
  ["=== RUN   TestA"; "=== RUN   TestB"; "=== RUN   TestC"].

Definition suiteFinishes : list string :=
  ["--- FAIL: TestB (0.50s)"; "--- SKIP: TestC (0.00s)";
   "--- PASS: TestA (0.29s)"].

(** U+1F600 in UTF-8. *)
Definition grinningFace : string :=
  String (ascii_of_nat 240) (String (ascii_of_nat 159)
    (String (ascii_of_nat 152) (String (ascii_of_nat 128) EmptyString))).

(** * Definitions used to state further properties *)

(** The state in which the loop stops. *)
Definition stateOf (o : outcome) : state :=
  match o with
  | Running st => st
  | Panicked _ st => st
  end.

(** The lines as they are printed when passed through. *)
Definition passedThrough (lines : list string) : string :=
  cat (map (fun l => l ++ newline) lines).

(** Every finish line names a test that started after the last package
    line before it; [acc] holds the names started so far. *)
Fixpoint finishesKnown (lines : list string) (acc : list string) : bool :=
  match lines with
  | [] => true
  | l :: ls =>
    if Regexp.cruftPattern l then finishesKnown ls acc
    else
    match Regexp.testRunPattern l with
    | Some n => finishesKnown ls (acc ++ [n])%list
    | None =>
    match Regexp.testFinishPattern l with
    | Some (_, n, _) =>
      if existsb (String.eqb n) acc then finishesKnown ls acc else false
    | None =>
    match Regexp.packageFinishPattern l with
    | Some _ => finishesKnown ls []
    | None => finishesKnown ls acc
    end end end
  end.

Definition knownStatus (s : string) : Prop :=
  s = "" \/ s = "PASS" \/ s = "FAIL" \/ s = "SKIP".

(** The capturing pointer is one of the buffer; every status is empty or
    one of the three of the finish pattern. *)
Record tidy (st : state) : Prop := {
  tidy_capturing : forall p, capturingTest st = Some p ->
    In p (packageTestBuffer st);
  tidy_status : forall p, knownStatus (status (deref (heap st) p))
}.

(** The state [st] seen from a run that had already allocated the records
    [g] and printed [o]: the pointers are shifted past [g]. *)
Definition shiftState (g : store) (o : string) (st : state) : state :=
  mkState (g ++ heap st)%list
          (map (Nat.add (length g)) (packageTestBuffer st))
          (option_map (Nat.add (length g)) (capturingTest st))
          (o ++ stdout st).

Definition shiftOutcome (g : store) (o : string) (out : outcome) : outcome :=
  match out with
  | Running st => Running (shiftState g o st)
  | Panicked msg st => Panicked msg (shiftState g o st)
  end.

(** A byte above the space. *)
Definition aboveSpace (c : ascii) : bool := 0x20 <? Utf8.byte c.

(** A byte that [escape] copies: ASCII, above the space, not special. *)
Definition plainByte (c : ascii) : bool :=
  (0x20 <? Utf8.byte c) && (Utf8.byte c <? 0x80)
  && negb (Regexp.specialCharsPattern (Utf8.byte c)).

Definition asciiByte (c : ascii) : bool := Utf8.byte c <? 0x80.

(** The value has no bare special character: a bar starts an escape and
    takes the byte after it, and outside of an escape there is no quote,
    bracket, bar, newline or carriage return. *)
Fixpoint wellEscaped (s : string) : bool :=
  match s with
  | EmptyString => true
  | String c t =>
    if Utf8.byte c =? 124 then
      match t with
      | EmptyString => false
      | String _ t' => wellEscaped t'
      end
    else if Regexp.specialCharsPattern (Utf8.byte c) then false
    else wellEscaped t
  end.

(** The value of a hexadecimal digit. *)
Definition hexValue (c : ascii) : Z :=
  let b := Utf8.byte c in
  if (48 <=? b) && (b <=? 57) then b - 48
  else if (97 <=? b) && (b <=? 102) then b - 87
  else 0.

(** Reading an escaped value back: [|n] and [|r] are the newline and the
    carriage return, [|0xHHHH] is the byte [HH] of its last two digits, [|c]
    is [c]. *)
Fixpoint unescape (s : string) : string :=
  match s with
  | EmptyString => EmptyString
  | String c t =>
    if Utf8.byte c =? 124 then
      match t with
      | EmptyString => EmptyString
      | String k t1 =>
        if Utf8.byte k =? 110 then String LF (unescape t1)
        else if Utf8.byte k =? 114 then String CR (unescape t1)
        else if Utf8.byte k =? 48 then
          match t1 with
          | String _ (String _ (String _ (String h (String l t6)))) =>
            String (ascii_of_N (Z.to_N (16 * hexValue h + hexValue l)))
                   (unescape t6)
          | _ => EmptyString
          end
        else String k (unescape t1)
      end
    else String c (unescape t)
  end.

Definition eAcute : string :=
  String (ascii_of_nat 195) (String (ascii_of_nat 169) EmptyString).
Definition eGrave : string :=
  String (ascii_of_nat 195) (String (ascii_of_nat 168) EmptyString).

(** [s] is some white space, the token [tok] and [rest], where the token
    ends. *)
Definition spacedToken (s tok rest : string) : Prop :=
  exists ws,
    s = ws ++ tok ++ rest /\
    ws <> "" /\ allb Regexp.isSpace ws = true /\
    tok <> "" /\ allb Regexp.notSpace tok = true /\
    stopsAt Regexp.notSpace rest.

(** ** Definitions for the failure message *)

(** [s] is [Error:], the white space [ws] (newlines count as white space),
    the bytes [body] up to the end of a line, and [rest]. *)
Definition ErrorMatchParts (s ws body rest : string) : Prop :=
  s = "Error:" ++ ws ++ body ++ rest /\
  ws <> "" /\ allb Regexp.isSpace ws = true /\
  body <> "" /\ allb Regexp.notNewline body = true /\
  stopsAt Regexp.notNewline rest.

(** [m] is the match at the start of [s] that the pattern prefers: of all
    the ways to match there, the one whose white space is longest. *)
Definition PreferredErrorMatch (s m : string) : Prop :=
  exists ws body rest,
    ErrorMatchParts s ws body rest /\
    m = "Error:" ++ ws ++ body /\
    forall ws' body' rest',
      ErrorMatchParts s ws' body' rest' ->
      (String.length ws' <= String.length ws)%nat.

(** [m] is the preferred match at the leftmost place of [s] that has a
    match. *)
Definition LeftmostErrorMatch (s m : string) : Prop :=
  exists pre post,
    s = pre ++ post /\ PreferredErrorMatch post m /\
    forall pre' post' m',
      s = pre' ++ post' ->
      (String.length pre' < String.length pre)%nat ->
      ~ ErrorMatch post' m'.

(** The match of the pattern in the first line of the output that has one,
    each line searched by itself. *)
Fixpoint firstLineMatch (out : list string) : option string :=
  match out with
  | [] => None
  | l :: ls =>
    let m := Regexp.errorPattern_FindString l in
    if isEmpty m then firstLineMatch ls else Some m
  end.

(** The message as the specification words it: the first match found in a
    single line, else the first line of the output trimmed.  It is compared
    with [failureMessage], which follows the code. *)
Definition lineMessage (out : list string) : string :=
  match firstLineMatch out with
  | Some m => m
  | None => Strings.TrimSpace (hd "" out)
  end.

(** A failed test whose output has [Error:] at the end of a line. *)
Definition crossLineRecord : testResult :=
  mkTestResult "TestA" "FAIL" ["Error:"; "  next line"; "tail"]
    (S754_zero false).

(** * Properties *)

(** ** Strings as sequences *)

Lemma append_nil_r (s : string) : s ++ "" = s.
Proof. induction s as [|c s IH]; simpl; [reflexivity | now rewrite IH]. Qed.

Lemma append_assoc (a b c : string) : (a ++ b) ++ c = a ++ b ++ c.
Proof. induction a as [|x a IH]; simpl; [reflexivity | now rewrite IH]. Qed.

Lemma length_append (a b : string) :
  String.length (a ++ b) = (String.length a + String.length b)%nat.
Proof. induction a as [|x a IH]; simpl; [reflexivity | now rewrite IH]. Qed.

Lemma cat_app (l1 l2 : list string) : cat (l1 ++ l2)%list = cat l1 ++ cat l2.
Proof.
  induction l1 as [|x l1 IH]; simpl; [reflexivity |].
  now rewrite IH, append_assoc.
Qed.

Lemma take_drop (n : nat) (s : string) : Utf8.take n s ++ Utf8.drop n s = s.
Proof.
  revert s; induction n as [|n IH]; intros [|c s]; simpl; try reflexivity.
  now rewrite IH.
Qed.

Lemma length_drop_le (n : nat) (s : string) :
  (String.length (Utf8.drop n s) <= String.length s)%nat.
Proof.
  revert s; induction n as [|n IH]; intros [|c s]; simpl; try lia.
  specialize (IH s); lia.
Qed.

Lemma take_app_exact (a b : string) : Utf8.take (String.length a) (a ++ b) = a.
Proof. induction a as [|x a IH]; simpl; [now destruct b | now rewrite IH]. Qed.

Lemma drop_app_exact (a b : string) : Utf8.drop (String.length a) (a ++ b) = b.
Proof. induction a as [|x a IH]; simpl; [reflexivity | exact IH]. Qed.

(** ** Bytes *)

Lemma byte_range (c : ascii) : 0 <= Utf8.byte c < 256.
Proof.
  unfold Utf8.byte. pose proof (N_ascii_bounded c) as H.
  split; [apply N2Z.is_nonneg | ].
  change 256 with (Z.of_N 256). now apply N2Z.inj_lt.
Qed.

Lemma byte_inj (c1 c2 : ascii) : Utf8.byte c1 = Utf8.byte c2 -> c1 = c2.
Proof.
  unfold Utf8.byte. intros H. apply N2Z.inj in H.
  rewrite <- (ascii_N_embedding c1), <- (ascii_N_embedding c2). now rewrite H.
Qed.

(** ** Decoding one rune *)

Lemma first_ascii (b : Z) : b < 0x80 -> Utf8.first b = Utf8.FAscii.
Proof. intros H. unfold Utf8.first. destruct (Z.ltb_spec b 0x80); [reflexivity | lia]. Qed.

Lemma first_lead (b : Z) (sz : nat) (lo hi : Z) :
  Utf8.first b = Utf8.FLead sz lo hi ->
  0x80 <= lo /\ hi <= 0xBF /\
  ((sz = 2%nat /\ 0xC2 <= b <= 0xDF) \/
   (sz = 3%nat /\ ((b = 0xE0 /\ lo = 0xA0) \/ 0xE1 <= b <= 0xEF)) \/
   (sz = 4%nat /\ ((b = 0xF0 /\ lo = 0x90) \/ 0xF1 <= b <= 0xF4))).
Proof.
  unfold Utf8.first, Utf8.locb, Utf8.hicb.
  repeat match goal with
  | |- context [if ?x <? ?y then _ else _] => destruct (Z.ltb_spec x y)
  | |- context [if ?x =? ?y then _ else _] => destruct (Z.eqb_spec x y)
  end; intros E; inversion E; subst; lia.
Qed.

Lemma decode_ascii (c : ascii) (t : string) :
  Utf8.byte c < 0x80 ->
  Utf8.DecodeRuneInString (String c t) = (Utf8.byte c, 1%nat).
Proof. intros H. simpl. now rewrite first_ascii. Qed.

Lemma lor_ge_128 (a b : Z) : 0 <= a -> 0 <= b -> 128 <= a -> 128 <= Z.lor a b.
Proof.
  intros Ha Hb H.
  assert (Hl : 7 <= Z.log2 (Z.lor a b)).
  { rewrite Z.log2_lor by assumption.
    transitivity (Z.log2 a); [| apply Z.le_max_l].
    change 7 with (Z.log2 128). now apply Z.log2_le_mono. }
  destruct (Z.lt_ge_cases (Z.lor a b) 128) as [Hlt|]; [| assumption].
  assert (0 <= Z.lor a b) by (apply Z.lor_nonneg; auto).
  destruct (Z.eq_dec (Z.lor a b) 0) as [E|]; [rewrite E in Hl; simpl in Hl; lia|].
  assert (Z.log2 (Z.lor a b) < 7) by (apply Z.log2_lt_pow2; lia). lia.
Qed.

Lemma lor_ge_128_r (a b : Z) : 0 <= a -> 0 <= b -> 128 <= b -> 128 <= Z.lor a b.
Proof. intros. rewrite Z.lor_comm. now apply lor_ge_128. Qed.

Lemma land_mask (x : Z) (k : Z) : 0 <= k -> Z.land x (Z.ones k) = x mod 2 ^ k.
Proof. intros. now apply Z.land_ones. Qed.

Ltac bits :=
  unfold Utf8.maskx, Utf8.mask2, Utf8.mask3, Utf8.mask4;
  change 0x3F with (Z.ones 6); change 0x1F with (Z.ones 5);
  change 0x0F with (Z.ones 4); change 0x07 with (Z.ones 3);
  rewrite ?Z.land_ones by lia; rewrite ?Z.shiftl_mul_pow2 by lia;
  Z.div_mod_to_equations.

Ltac split_ifs :=
  repeat (match goal with
  | |- context [?x <? ?y] => destruct (Z.ltb_spec x y)
  | |- context [?x =? ?y] => destruct (Z.eqb_spec x y)
  | |- context [(?x <? ?y)%nat] => destruct (Nat.ltb_spec x y)
  | |- context [(?x <=? ?y)%nat] => destruct (Nat.leb_spec x y)
  end; simpl).

(** *** Decoding at a byte that is not ASCII *)

Section NonAsciiFirstByte.

Variable c : ascii.

Hypothesis Hc : 0x80 <= Utf8.byte c.

(** What decoding at a byte that is not ASCII yields: the rune is not
    ASCII either, the bytes it takes after the first are not ASCII, and
    they alone decode to the same rune. *)
Lemma decode_chunk (t : string) (r : Z) (w : nat) :
  Utf8.DecodeRuneInString (String c t) = (r, w) ->
  (1 <= w)%nat /\ 128 <= r /\
  String.length (Utf8.take (pred w) t) = pred w /\
  allb hiByte (Utf8.take (pred w) t) = true /\
  Utf8.DecodeRuneInString (String c (Utf8.take (pred w) t)) = (r, w).
Proof.
  pose proof (byte_range c) as Rc.
  unfold Utf8.DecodeRuneInString.
  destruct (Utf8.first (Utf8.byte c)) as [| |sz lo hi] eqn:F.
  - exfalso. revert F. unfold Utf8.first.
    destruct (Z.ltb_spec (Utf8.byte c) 128); [lia|].
    repeat match goal with
    | |- context [if ?x <? ?y then _ else _] => destruct (Z.ltb_spec x y)
    | |- context [if ?x =? ?y then _ else _] => destruct (Z.eqb_spec x y)
    end; discriminate.
  - intros E; inversion E; subst; simpl.
    unfold Utf8.RuneError. repeat split; try lia; reflexivity.
  - apply first_lead in F as Fl. destruct Fl as (Hlo & Hhi & Hsz).
    assert (Herr : forall t', (Utf8.RuneError, 1%nat) = (r, w) ->
      (1 <= w)%nat /\ 128 <= r /\
      String.length (Utf8.take (pred w) t) = pred w /\
      allb hiByte (Utf8.take (pred w) t) = true /\
      (if (String.length (String c (Utf8.take (pred w) t)) <? sz)%nat
       then (Utf8.RuneError, 1%nat) else t') = (r, w)).
    { intros t' E; inversion E; subst; simpl.
      unfold Utf8.RuneError. repeat split; try lia.
      destruct Hsz as [[-> _]|[[-> _]|[-> _]]]; reflexivity. }
    destruct ((String.length (String c t) <? sz)%nat) eqn:L; [apply Herr|].
    apply Nat.ltb_ge in L. simpl in L.
    destruct t as [|c1 t1]; [apply Herr|].
    pose proof (byte_range c1) as R1.
    destruct ((Utf8.byte c1 <? lo) || (hi <? Utf8.byte c1)) eqn:C1; [apply Herr|].
    apply orb_false_elim in C1 as [C1a C1b].
    apply Z.ltb_ge in C1a, C1b.
    assert (H1 : hiByte c1 = true) by (unfold hiByte; apply Z.leb_le; lia).
    destruct ((sz <=? 2)%nat) eqn:S2.
    { apply Nat.leb_le in S2.
      assert (sz = 2%nat) by lia. subst sz.
      intros E; inversion E; subst; clear E. simpl.
      rewrite H1.
      repeat split; try lia.
      - assert (0xC2 <= Utf8.byte c <= 0xDF)
          by (destruct Hsz as [[_ ?]|[[? _]|[? _]]]; [assumption | lia | lia]).
        apply lor_ge_128; bits; lia.
      - replace (Utf8.byte c1 <? lo) with false by (symmetry; apply Z.ltb_ge; lia).
        replace (hi <? Utf8.byte c1) with false by (symmetry; apply Z.ltb_ge; lia).
        reflexivity. }
    apply Nat.leb_gt in S2.
    destruct t1 as [|c2 t2]; [apply Herr|].
    pose proof (byte_range c2) as R2.
    destruct ((Utf8.byte c2 <? Utf8.locb) || (Utf8.hicb <? Utf8.byte c2)) eqn:C2;
      [apply Herr|].
    apply orb_false_elim in C2 as [C2a C2b].
    apply Z.ltb_ge in C2a. apply Z.ltb_ge in C2b.
    unfold Utf8.locb, Utf8.hicb in *.
    assert (H2 : hiByte c2 = true) by (unfold hiByte; apply Z.leb_le; lia).
    destruct ((sz <=? 3)%nat) eqn:S3.
    { apply Nat.leb_le in S3.
      assert (sz = 3%nat) by lia. subst sz.
      intros E; inversion E; subst; clear E. simpl.
      rewrite H1, H2.
      repeat split; try lia.
      - destruct Hsz as [[? _]|[[_ Hb]|[? _]]]; [lia | | lia].
        destruct Hb as [[Hb ->]|Hb].
        + apply lor_ge_128; [apply Z.lor_nonneg; split; bits; lia | bits; lia |].
          apply lor_ge_128_r; bits; lia.
        + apply lor_ge_128; [apply Z.lor_nonneg; split; bits; lia | bits; lia |].
          apply lor_ge_128; bits; lia.
      - replace (Utf8.byte c1 <? lo) with false by (symmetry; apply Z.ltb_ge; lia).
        replace (hi <? Utf8.byte c1) with false by (symmetry; apply Z.ltb_ge; lia).
        replace (Utf8.byte c2 <? 128) with false by (symmetry; apply Z.ltb_ge; lia).
        replace (191 <? Utf8.byte c2) with false by (symmetry; apply Z.ltb_ge; lia).
        reflexivity. }
    apply Nat.leb_gt in S3.
    destruct t2 as [|c3 t3]; [apply Herr|].
    pose proof (byte_range c3) as R3.
    destruct ((Utf8.byte c3 <? 128) || (191 <? Utf8.byte c3)) eqn:C3; [apply Herr|].
    apply orb_false_elim in C3 as [C3a C3b].
    apply Z.ltb_ge in C3a. apply Z.ltb_ge in C3b.
    assert (H3 : hiByte c3 = true) by (unfold hiByte; apply Z.leb_le; lia).
    assert (sz = 4%nat) by (destruct Hsz as [[? _]|[[? _]|[? _]]]; lia). subst sz.
    intros E; inversion E; subst; clear E. simpl.
    rewrite H1, H2, H3.
    repeat split; try lia.
    + destruct Hsz as [[? _]|[[? _]|[_ Hb]]]; [lia | lia |].
      destruct Hb as [[Hb ->]|Hb].
      * apply lor_ge_128; [| bits; lia |].
        { apply Z.lor_nonneg; split; [apply Z.lor_nonneg; split|]; bits; lia. }
        apply lor_ge_128; [apply Z.lor_nonneg; split; bits; lia | bits; lia |].
        apply lor_ge_128_r; bits; lia.
      * apply lor_ge_128; [| bits; lia |].
        { apply Z.lor_nonneg; split; [apply Z.lor_nonneg; split|]; bits; lia. }
        apply lor_ge_128; [apply Z.lor_nonneg; split; bits; lia | bits; lia |].
        apply lor_ge_128; bits; lia.
    + replace (Utf8.byte c1 <? lo) with false by (symmetry; apply Z.ltb_ge; lia).
      replace (hi <? Utf8.byte c1) with false by (symmetry; apply Z.ltb_ge; lia).
      replace (Utf8.byte c2 <? 128) with false by (symmetry; apply Z.ltb_ge; lia).
      replace (191 <? Utf8.byte c2) with false by (symmetry; apply Z.ltb_ge; lia).
      replace (Utf8.byte c3 <? 128) with false by (symmetry; apply Z.ltb_ge; lia).
      replace (191 <? Utf8.byte c3) with false by (symmetry; apply Z.ltb_ge; lia).
      reflexivity.
Qed.

(** Decoding at [c] does not look past the first ASCII byte that
    follows. *)
Lemma decode_sim (t t' : string) :
  sim t t' ->
  Utf8.DecodeRuneInString (String c t) = Utf8.DecodeRuneInString (String c t').
Proof.
  intros Hs. unfold Utf8.DecodeRuneInString.
  destruct (Utf8.first (Utf8.byte c)) as [| |sz lo hi] eqn:F; try reflexivity.
  apply first_lead in F as (Hlo & Hhi & Hsz).
  unfold Utf8.locb, Utf8.hicb, hiByte in *.
  inversion Hs as [|c1 c1' t1 t1' L1 L1'|c1 t1 t1' H1 Hs1]; subst; clear Hs.
  - reflexivity.
  - apply Z.leb_gt in L1, L1'. simpl orb.
    destruct Hsz as [[-> _]|[[-> _]|[-> _]]]; simpl String.length;
      simpl; split_ifs; simpl; try reflexivity; try lia.
  - apply Z.leb_le in H1.
    inversion Hs1 as [|c2 c2' t2 t2' L2 L2'|c2 t2 t2' H2 Hs2]; subst; clear Hs1.
    + reflexivity.
    + apply Z.leb_gt in L2, L2'.
      destruct Hsz as [[-> _]|[[-> _]|[-> _]]]; simpl String.length;
        simpl; split_ifs; simpl; try reflexivity; try lia.
    + apply Z.leb_le in H2.
      inversion Hs2 as [|c3 c3' t3 t3' L3 L3'|c3 t3 t3' H3 Hs3]; subst; clear Hs2.
      * reflexivity.
      * apply Z.leb_gt in L3, L3'.
        destruct Hsz as [[-> _]|[[-> _]|[-> _]]]; simpl String.length;
          simpl; split_ifs; simpl; try reflexivity; try lia.
      * destruct Hsz as [[-> _]|[[-> _]|[-> _]]]; simpl String.length;
          simpl; split_ifs; simpl; try reflexivity; try lia.
Qed.

End NonAsciiFirstByte.

Lemma special_lo (b : Z) : Regexp.specialCharsPattern b = true -> b < 0x80.
Proof. unfold Regexp.specialCharsPattern. split_ifs; intros; lia || discriminate. Qed.

Lemma special_cases (c : ascii) :
  Regexp.specialCharsPattern (Utf8.byte c) = true ->
  exists x, specEscape (String c "") = String "|" (String x "")
            /\ Utf8.byte x < 0x80
            /\ Regexp.nonAsciiCharsPattern (Utf8.byte x) = false.
Proof.
  unfold Regexp.specialCharsPattern. intros H.
  assert (E : c = LF \/ c = CR \/ c = "["%char \/ c = "]"%char
              \/ c = "|"%char \/ c = "'"%char).
  { revert H. split_ifs; intros; try discriminate;
      [left | right; left | do 2 right; left | do 3 right; left
       | do 4 right; left | do 5 right]; apply byte_inj; assumption. }
  destruct E as [->|[->|[->|[->|[->| ->]]]]];
    eexists; (split; [reflexivity|]); split; vm_compute; reflexivity.
Qed.

Lemma sim_escBytes (t : string) : sim t (escBytes t).
Proof.
  induction t as [|c t IH]; simpl; [constructor|].
  destruct (Regexp.specialCharsPattern (Utf8.byte c)) eqn:S.
  - apply special_lo in S as L. apply special_cases in S as (x & -> & _).
    simpl. apply sim_lo; unfold hiByte; [apply Z.leb_gt; lia | reflexivity].
  - simpl. destruct (hiByte c) eqn:H.
    + now apply sim_hi.
    + now apply sim_lo.
Qed.

Lemma escBytes_hi (a b : string) :
  allb hiByte a = true -> escBytes (a ++ b) = a ++ escBytes b.
Proof.
  induction a as [|c a IH]; simpl; [reflexivity|].
  intros H. apply andb_true_iff in H as [Hc Ha].
  destruct (Regexp.specialCharsPattern (Utf8.byte c)) eqn:S.
  - apply special_lo in S. unfold hiByte in Hc. apply Z.leb_le in Hc. lia.
  - simpl. now rewrite IH.
Qed.

(** ** The runes of a string *)

Lemma runes_fuel_irrelevant (n m : nat) (s : string) :
  (String.length s <= n)%nat -> (String.length s <= m)%nat ->
  Utf8.runes_fuel n s = Utf8.runes_fuel m s.
Proof.
  revert m s. induction n as [|n IH]; intros m s Hn Hm.
  - destruct s; [now destruct m | simpl in Hn; lia].
  - destruct s as [|c t]; [now destruct m|].
    destruct m as [|m]; [simpl in Hm; lia|].
    cbn [Utf8.runes_fuel].
    destruct (Utf8.DecodeRuneInString (String c t)) as [r w].
    f_equal. simpl in Hn, Hm.
    pose proof (length_drop_le (pred w) t).
    apply IH; lia.
Qed.

Lemma runes_fuel_enough (n : nat) (s : string) :
  (String.length s <= n)%nat -> Utf8.runes_fuel n s = Utf8.runes s.
Proof. intros H. unfold Utf8.runes. apply runes_fuel_irrelevant; lia. Qed.

Lemma runes_cons (c : ascii) (t : string) :
  Utf8.runes (String c t) =
  let '(r, w) := Utf8.DecodeRuneInString (String c t) in
  (r, String c (Utf8.take (pred w) t)) :: Utf8.runes (Utf8.drop (pred w) t).
Proof.
  unfold Utf8.runes at 1. cbn [Utf8.runes_fuel String.length].
  destruct (Utf8.DecodeRuneInString (String c t)) as [r w].
  f_equal. apply runes_fuel_enough. apply length_drop_le.
Qed.

Lemma runes_ascii (c : ascii) (t : string) :
  Utf8.byte c < 0x80 ->
  Utf8.runes (String c t) = (Utf8.byte c, String c "") :: Utf8.runes t.
Proof. intros H. rewrite runes_cons, decode_ascii by assumption. reflexivity. Qed.

Lemma runes_nil : Utf8.runes "" = [].
Proof. reflexivity. Qed.

(** Induction on the length of a string. *)
Lemma string_length_ind (P : string -> Prop) :
  (forall s, (forall s', (String.length s' < String.length s)%nat -> P s') -> P s) ->
  forall s, P s.
Proof.
  intros H s. remember (String.length s) as n eqn:E.
  revert s E. induction n as [n IH] using lt_wf_ind.
  intros s ->. apply H. intros s' Hs'. now apply (IH _ Hs').
Qed.

Lemma specialPass_bytes (s : string) :
  Regexp.ReplaceAllStringFunc Regexp.specialCharsPattern s specEscape
  = escBytes s.
Proof.
  unfold Regexp.ReplaceAllStringFunc.
  induction s as [s IH] using string_length_ind.
  destruct s as [|c t]; [reflexivity|].
  destruct (Z.lt_ge_cases (Utf8.byte c) 0x80) as [L|G].
  - rewrite runes_ascii by assumption. cbn [map cat escBytes].
    rewrite IH by (simpl; lia). reflexivity.
  - rewrite runes_cons.
    destruct (Utf8.DecodeRuneInString (String c t)) as [r w] eqn:D.
    apply (decode_chunk c G) in D as (Hw & Hr & Hlen & Hhi & _).
    cbn [map cat]. pose proof (length_drop_le (pred w) t).
    rewrite IH by (simpl; lia).
    destruct (Regexp.specialCharsPattern r) eqn:S;
      [apply special_lo in S; lia|].
    cbn [escBytes].
    destruct (Regexp.specialCharsPattern (Utf8.byte c)) eqn:S';
      [apply special_lo in S'; lia|].
    simpl. f_equal.
    rewrite <- (take_drop (pred w) t) at 3.
    symmetry. now apply escBytes_hi.
Qed.

Lemma escapeRune_special (cls : Z -> bool) (c : ascii) :
  Regexp.specialCharsPattern (Utf8.byte c) = true ->
  escapeRune cls (Utf8.byte c, String c "") = specEscape (String c "").
Proof.
  unfold Regexp.specialCharsPattern. intros H.
  assert (E : c = LF \/ c = CR \/ c = "["%char \/ c = "]"%char
              \/ c = "|"%char \/ c = "'"%char).
  { revert H. split_ifs; intros; try discriminate;
      [left | right; left | do 2 right; left | do 3 right; left
       | do 4 right; left | do 5 right]; apply byte_inj; assumption. }
  destruct E as [->|[->|[->|[->|[->| ->]]]]]; reflexivity.
Qed.

Lemma escapeRune_plain (cls : Z -> bool) (r : Z) (m : string) :
  Regexp.specialCharsPattern r = false ->
  escapeRune cls (r, m) = if cls r then "|0x" ++ Fmt.x04 (firstByte m) else m.
Proof.
  unfold Regexp.specialCharsPattern, escapeRune.
  split_ifs; intros; try discriminate; reflexivity.
Qed.

Lemma not_special_ge (r : Z) : 0x80 <= r -> Regexp.specialCharsPattern r = false.
Proof.
  intros H. destruct (Regexp.specialCharsPattern r) eqn:S; [|reflexivity].
  apply special_lo in S. lia.
Qed.

Lemma escape_runes_aux (s : string) :
  cat (map nonAsciiPass (Utf8.runes (escBytes s)))
  = escapeByRune Regexp.nonAsciiCharsPattern s.
Proof.
  unfold escapeByRune.
  induction s as [s IH] using string_length_ind.
  destruct s as [|c t]; [reflexivity|].
  destruct (Z.lt_ge_cases (Utf8.byte c) 0x80) as [L|G].
  - rewrite (runes_ascii c t) by assumption. cbn [map cat escBytes].
    rewrite <- IH by (simpl; lia).
    destruct (Regexp.specialCharsPattern (Utf8.byte c)) eqn:S.
    + rewrite escapeRune_special by assumption.
      apply special_cases in S as (x & -> & Lx & Nx).
      cbn [String.append].
      rewrite (runes_ascii "|"%char) by (vm_compute; reflexivity).
      rewrite (runes_ascii x) by assumption.
      cbn [map cat nonAsciiPass]. rewrite Nx.
      change (Regexp.nonAsciiCharsPattern (Utf8.byte "|")) with false.
      reflexivity.
    + rewrite escapeRune_plain by assumption.
      cbn [String.append]. rewrite (runes_ascii c) by assumption.
      cbn [map cat nonAsciiPass unicodeEscape firstByte]. reflexivity.
  - rewrite (runes_cons c t).
    destruct (Utf8.DecodeRuneInString (String c t)) as [r w] eqn:D.
    apply (decode_chunk c G) in D as Dc.
    destruct Dc as (Hw & Hr & Hlen & Hhi & _).
    cbn [map cat escBytes].
    rewrite (not_special_ge (Utf8.byte c)) by assumption.
    cbn [String.append].
    rewrite runes_cons.
    rewrite <- (decode_sim c t (escBytes t) (sim_escBytes t)), D.
    assert (E : escBytes t = Utf8.take (pred w) t ++ escBytes (Utf8.drop (pred w) t)).
    { rewrite <- (take_drop (pred w) t) at 1. now apply escBytes_hi. }
    rewrite E.
    replace (Utf8.take (pred w) (Utf8.take (pred w) t ++ escBytes (Utf8.drop (pred w) t)))
      with (Utf8.take (pred w) t)
      by (rewrite <- Hlen at 2; symmetry; apply take_app_exact).
    replace (Utf8.drop (pred w) (Utf8.take (pred w) t ++ escBytes (Utf8.drop (pred w) t)))
      with (escBytes (Utf8.drop (pred w) t))
      by (rewrite <- Hlen at 2; symmetry; apply drop_app_exact).
    cbn [map cat nonAsciiPass].
    pose proof (length_drop_le (pred w) t).
    rewrite IH by (simpl; lia).
    rewrite escapeRune_plain by (now apply not_special_ge).
    reflexivity.
Qed.

Lemma escape_by_rune (s : string) :
  escape s = escapeByRune Regexp.nonAsciiCharsPattern s.
Proof.
  unfold escape. rewrite specialPass_bytes.
  unfold Regexp.ReplaceAllStringFunc.
  rewrite <- escape_runes_aux. reflexivity.
Qed.

(** ** The store *)

Lemma deref_lookup (h : store) (p : ptr) (t : testResult) :
  h !! p = Some t -> deref h p = t.
Proof. unfold deref. now intros ->. Qed.

Lemma length_modify (h : store) (p : ptr) (f : testResult -> testResult) :
  length (modify h p f) = length h.
Proof. unfold modify. apply length_insert. Qed.

Lemma deref_modify_eq (h : store) (p : ptr) (f : testResult -> testResult) :
  (p < length h)%nat -> deref (modify h p f) p = f (deref h p).
Proof.
  intros H. unfold modify. apply deref_lookup.
  now apply list_lookup_insert_eq.
Qed.

Lemma deref_modify_ne (h : store) (p q : ptr) (f : testResult -> testResult) :
  p <> q -> deref (modify h p f) q = deref h q.
Proof.
  intros H. unfold modify, deref. now rewrite list_lookup_insert_ne.
Qed.

Lemma deref_alloc_old (h : store) (t : testResult) (p : ptr) :
  (p < length h)%nat -> deref (h ++ [t])%list p = deref h p.
Proof. intros H. unfold deref. now rewrite lookup_app_l. Qed.

Lemma deref_alloc_new (h : store) (t : testResult) :
  deref (h ++ [t])%list (length h) = t.
Proof.
  apply deref_lookup. rewrite lookup_app_r by lia.
  now rewrite Nat.sub_diag.
Qed.

Lemma name_modify (h : store) (p q : ptr) (f : testResult -> testResult) :
  (forall t, name (f t) = name t) ->
  name (deref (modify h p f) q) = name (deref h q).
Proof.
  intros Hf. destruct (Nat.eq_dec p q) as [->|Hne].
  - destruct (Nat.lt_ge_cases q (length h)) as [Hlt|Hge].
    + rewrite deref_modify_eq by assumption. apply Hf.
    + unfold modify. now rewrite list_insert_ge by lia.
  - now rewrite deref_modify_ne.
Qed.

Lemma findTest_In (h : store) (n : string) (results : list ptr) (p : ptr) :
  findTest h n results = Some p -> In p results /\ name (deref h p) = n.
Proof.
  induction results as [|q results IH]; simpl; [discriminate|].
  destruct (String.eqb_spec (name (deref h q)) n) as [E|E].
  - intros [= ->]. auto.
  - intros H. destruct (IH H). auto.
Qed.

(** ** What the patterns let through *)

Lemma passFailSkip_status (s m r : string) :
  Regexp.passFailSkip s = Some (m, r) -> m = "PASS" \/ m = "FAIL" \/ m = "SKIP".
Proof.
  unfold Regexp.passFailSkip.
  destruct (stripPrefix "PASS" s); [intros [= <- _]; auto|].
  destruct (stripPrefix "FAIL" s); [intros [= <- _]; auto|].
  destruct (stripPrefix "SKIP" s); [intros [= <- _]; auto|discriminate].
Qed.

Lemma testFinish_status (input m1 m2 m3 : string) :
  Regexp.testFinishPattern input = Some (m1, m2, m3) ->
  m1 = "PASS" \/ m1 = "FAIL" \/ m1 = "SKIP".
Proof.
  unfold Regexp.testFinishPattern.
  destruct (stripPrefix "--- " input) as [r|]; [|discriminate].
  destruct (Regexp.passFailSkip r) as [[s r1]|] eqn:P; [|discriminate].
  destruct (stripPrefix ":" r1) as [r2|]; [|discriminate].
  destruct (Regexp.spacesThenToken r2) as [[m r3]|]; [|discriminate].
  destruct (stripPrefix " (" r3) as [r4|]; [|discriminate].
  destruct (span Regexp.isDigitDot r4) as [d r5].
  destruct (isEmpty d); [discriminate|].
  destruct (stripPrefix "s)" r5); [|discriminate].
  intros [= <- _ _]. eapply passFailSkip_status; eassumption.
Qed.

(** ** An invariant of the loop *)

Lemma valid_initial : valid initial.
Proof.
  split; simpl.
  - intros p [].
  - discriminate.
  - intros p H. lia.
Qed.

Lemma valid_step (st st' : state) (input : string) :
  valid st -> step st input = Running st' -> valid st'.
Proof.
  intros [Vb Vc Vp]. unfold step.
  destruct (Regexp.cruftPattern input); [intros [= <-]; now split|].
  destruct (Regexp.testRunPattern input) as [m1|].
  { intros [= <-]. split; simpl.
    - intros p Hp. rewrite length_app. simpl.
      apply in_app_or in Hp as [Hp|[<-|[]]]; [apply Vb in Hp|]; lia.
    - discriminate.
    - intros p Hp. rewrite length_app in Hp. simpl in Hp.
      destruct (Nat.eq_dec p (length (heap st))) as [->|Hne].
      + rewrite deref_alloc_new. auto.
      + rewrite deref_alloc_old by lia. apply Vp. lia. }
  destruct (Regexp.testFinishPattern input) as [[[m1 m2] m3]|] eqn:TF.
  { destruct (findTest (heap st) m2 (packageTestBuffer st)) as [test|] eqn:FT;
      [|discriminate].
    apply findTest_In in FT as [Hin _]. apply Vb in Hin.
    apply testFinish_status in TF.
    set (h1 := modify (heap st) test _).
    assert (L1 : length h1 = length (heap st)) by apply length_modify.
    assert (Hs : status (deref (modify h1 test (set_status m1)) test) = m1).
    { rewrite deref_modify_eq by lia. reflexivity. }
    assert (Hm1 : m1 <> "") by (destruct TF as [->|[->| ->]]; discriminate).
    intros [= <-]. split; simpl; rewrite ?length_modify, ?L1.
    - assumption.
    - intros p Hp.
      assert (Hcases : p = test \/ (capturingTest st = Some p /\ p <> test)).
      { destruct (Nat.eq_dec p test); [now left|right].
        destruct (String.eqb _ "FAIL") in Hp; [congruence|auto]. }
      destruct Hcases as [->|[Hc Hne]].
      + split; [assumption|]. now rewrite Hs.
      + destruct (Vc _ Hc) as [Hlt Hst]. split; [assumption|].
        unfold h1. rewrite !deref_modify_ne by congruence. assumption.
    - intros p Hp. destruct (Nat.eq_dec p test) as [->|Hne].
      + rewrite Hs. intros ->. congruence.
      + unfold h1. rewrite !deref_modify_ne by congruence. now apply Vp. }
  destruct (Regexp.packageFinishPattern input) as [[m1 m2]|].
  { intros [= <-]. split; simpl.
    - intros p [].
    - discriminate.
    - assumption. }
  destruct (capturingTest st) as [test|] eqn:C.
  - destruct (Vc test eq_refl) as [Hlt Hst].
    intros [= <-]. split; simpl; rewrite ?length_modify.
    + assumption.
    + intros p [= <-]. split; [assumption|].
      rewrite deref_modify_eq by assumption. assumption.
    + intros p Hp. destruct (Nat.eq_dec p test) as [->|Hne].
      * rewrite deref_modify_eq by assumption. simpl. intros E. contradiction.
      * rewrite deref_modify_ne by congruence. now apply Vp.
  - intros [= <-]. split; simpl; assumption.
Qed.

Lemma valid_loop (lines : list string) (st st' : state) :
  valid st -> loop lines st = Running st' -> valid st'.
Proof.
  revert st. induction lines as [|l lines IH]; simpl; intros st V.
  - now intros [= <-].
  - destruct (step st l) as [st1|] eqn:S; [|discriminate].
    apply IH. eapply valid_step; eassumption.
Qed.

Lemma valid_main (lines : list string) (st : state) :
  main lines = Running st -> valid st.
Proof. apply valid_loop, valid_initial. Qed.

Lemma loop_app (l1 l2 : list string) (st : state) :
  loop (l1 ++ l2)%list st =
  match loop l1 st with
  | Running st' => loop l2 st'
  | Panicked msg st' => Panicked msg st'
  end.
Proof.
  revert st. induction l1 as [|l l1 IH]; simpl; intros st; [reflexivity|].
  destruct (step st l); [apply IH | reflexivity].
Qed.

(** ** Flushing a package *)

Lemma flushPackage_blocks (h : store) (pkg : string) (results : list ptr) :
  flushPackage h pkg results =
  suiteStarted pkg ++ cat (map (fun p => flush (deref h p)) results)
  ++ suiteFinished pkg.
Proof.
  unfold flushPackage, suiteStarted, suiteFinished.
  now rewrite !append_assoc.
Qed.

Lemma bufferNames_step (st st' : state) (input : string) :
  valid st -> step st input = Running st' ->
  bufferNames st' = startedNames [input] (bufferNames st).
Proof.
  intros [Vb Vc Vp]. unfold step, bufferNames. cbn [startedNames].
  destruct (Regexp.cruftPattern input); [now intros [= <-]|].
  destruct (Regexp.testRunPattern input) as [m1|].
  { intros [= <-]. simpl. rewrite map_app. simpl.
    rewrite deref_alloc_new. simpl. f_equal.
    apply map_ext_in. intros p Hp. rewrite deref_alloc_old; auto. }
  destruct (Regexp.testFinishPattern input) as [[[m1 m2] m3]|].
  { destruct (findTest _ _ _); [|discriminate].
    intros [= <-]. simpl. apply map_ext. intros q.
    rewrite !name_modify; reflexivity. }
  destruct (Regexp.packageFinishPattern input) as [[m1 m2]|].
  { now intros [= <-]. }
  destruct (capturingTest st).
  - intros [= <-]. simpl. apply map_ext. intros q.
    now rewrite name_modify.
  - now intros [= <-].
Qed.

Lemma startedNames_app (l1 l2 : list string) (acc : list string) :
  startedNames (l1 ++ l2)%list acc = startedNames l2 (startedNames l1 acc).
Proof.
  revert acc. induction l1 as [|l l1 IH]; intros acc; simpl; [reflexivity|].
  destruct (Regexp.cruftPattern l); [apply IH|].
  destruct (Regexp.testRunPattern l); [apply IH|].
  destruct (Regexp.testFinishPattern l); [apply IH|].
  destruct (Regexp.packageFinishPattern l); apply IH.
Qed.

Lemma bufferNames_loop (lines : list string) (st st' : state) :
  valid st -> loop lines st = Running st' ->
  bufferNames st' = startedNames lines (bufferNames st).
Proof.
  revert st. induction lines as [|l lines IH]; simpl loop; intros st V.
  - now intros [= <-].
  - destruct (step st l) as [st1|] eqn:S; [|discriminate].
    intros H. apply IH in H; [|eapply valid_step; eassumption].
    rewrite H. rewrite (bufferNames_step _ _ _ V S).
    change (l :: lines) with ([l] ++ lines)%list.
    now rewrite startedNames_app.
Qed.

(** C3. When a package line arrives the buffer is flushed once, as one
    suite: the suite-started line, one block per record in the order of the
    buffer, the suite-finished line; the records of the buffer are those of
    the tests started since the last package line, in the order of their
    start lines whatever the order of their finish lines; the buffer is
    empty afterwards. *)
Theorem package_flushed_in_start_order
    (lines : list string) (st : state) (input pkg : string) :
  main lines = Running st ->
  packageFinishedLine input pkg ->
  exists st',
    main (lines ++ [input]) = Running st' /\
    stdout st' =
      stdout st ++ suiteStarted pkg
      ++ cat (map (fun p => flush (deref (heap st) p)) (packageTestBuffer st))
      ++ suiteFinished pkg /\
    map (fun p => name (deref (heap st) p)) (packageTestBuffer st)
      = startedNames lines [] /\
    packageTestBuffer st' = [].
Proof.
  intros Hmain (Hc & Hr & Hf & verdict & Hp).
  unfold main in *. rewrite loop_app, Hmain. cbn [loop].
  unfold step. rewrite Hc, Hr, Hf, Hp.
  eexists. split; [reflexivity|]. cbn [stdout packageTestBuffer].
  split; [now rewrite flushPackage_blocks|]. split; [|reflexivity].
  apply (bufferNames_loop lines initial st valid_initial Hmain).
Qed.

Lemma demo_run : main demoLines = Running demoState.
Proof. vm_compute. reflexivity. Qed.

Lemma demo_package_line : packageFinishedLine demoPackageLine "pkg".
Proof.
  unfold packageFinishedLine. repeat split; try (vm_compute; reflexivity).
  exists "ok". vm_compute. reflexivity.
Qed.

Lemma package_flushed_in_start_order_witness :
  main demoLines = Running demoState /\
  packageFinishedLine demoPackageLine "pkg" /\
  exists st',
    main (demoLines ++ [demoPackageLine]) = Running st' /\
    stdout st' =
      stdout demoState ++ suiteStarted "pkg"
      ++ cat (map (fun p => flush (deref (heap demoState) p))
                  (packageTestBuffer demoState))
      ++ suiteFinished "pkg" /\
    map (fun p => name (deref (heap demoState) p)) (packageTestBuffer demoState)
      = startedNames demoLines [] /\
    packageTestBuffer st' = [].
Proof.
  split; [vm_compute; reflexivity|]. split.
  { unfold packageFinishedLine. repeat split; try (vm_compute; reflexivity).
    exists "ok". vm_compute. reflexivity. }
  apply (package_flushed_in_start_order demoLines demoState demoPackageLine "pkg").
  - vm_compute. reflexivity.
  - unfold packageFinishedLine. repeat split; try (vm_compute; reflexivity).
    exists "ok". vm_compute. reflexivity.
Defined.

(** ** Lines that are passed through or captured *)

Lemma teamcity_text_unclassified (s : string) :
  unclassified ("##teamcity[" ++ s).
Proof. repeat split. Qed.

(** C7. An unclassified line changes neither the buffer nor the capturing
    pointer.  While a test is capturing, the line is appended as it is to
    the output of that record, nothing else in the store changes and
    nothing is printed; otherwise the line is printed at once, as it is. *)
Theorem unclassified_line_captured_or_passed
    (lines : list string) (st : state) (input : string) :
  main lines = Running st ->
  unclassified input ->
  exists st',
    step st input = Running st' /\
    packageTestBuffer st' = packageTestBuffer st /\
    capturingTest st' = capturingTest st /\
    match capturingTest st with
    | Some test =>
      stdout st' = stdout st /\
      length (heap st') = length (heap st) /\
      output (deref (heap st') test)
        = (output (deref (heap st) test) ++ [input])%list /\
      name (deref (heap st') test) = name (deref (heap st) test) /\
      status (deref (heap st') test) = status (deref (heap st) test) /\
      durationSec (deref (heap st') test) = durationSec (deref (heap st) test) /\
      forall q, q <> test -> deref (heap st') q = deref (heap st) q
    | None =>
      stdout st' = stdout st ++ input ++ newline /\
      heap st' = heap st
    end.
Proof.
  intros Hmain (Hc & Hr & Hf & Hp).
  apply valid_main in Hmain as [_ Vc _].
  unfold step. rewrite Hc, Hr, Hf, Hp.
  destruct (capturingTest st) as [test|] eqn:C.
  - destruct (Vc test eq_refl) as [Hlt _].
    eexists. split; [reflexivity|]. cbn [packageTestBuffer capturingTest stdout heap].
    rewrite length_modify, deref_modify_eq by assumption.
    repeat split; try assumption.
    intros q Hq. apply deref_modify_ne. congruence.
  - eexists. split; [reflexivity|]. cbn. repeat split.
Qed.

Lemma unclassified_line_captured_or_passed_witness :
  main demoLines = Running demoState /\
  unclassified demoCapturedLine /\
  exists st',
    step demoState demoCapturedLine = Running st' /\
    packageTestBuffer st' = packageTestBuffer demoState /\
    capturingTest st' = capturingTest demoState /\
    match capturingTest demoState with
    | Some test =>
      stdout st' = stdout demoState /\
      length (heap st') = length (heap demoState) /\
      output (deref (heap st') test)
        = (output (deref (heap demoState) test) ++ [demoCapturedLine])%list /\
      name (deref (heap st') test) = name (deref (heap demoState) test) /\
      status (deref (heap st') test) = status (deref (heap demoState) test) /\
      durationSec (deref (heap st') test)
        = durationSec (deref (heap demoState) test) /\
      forall q, q <> test -> deref (heap st') q = deref (heap demoState) q
    | None =>
      stdout st' = stdout demoState ++ demoCapturedLine ++ newline /\
      heap st' = heap demoState
    end.
Proof.
  split; [vm_compute; reflexivity|].
  split; [apply teamcity_text_unclassified|].
  apply (unclassified_line_captured_or_passed demoLines demoState demoCapturedLine).
  - vm_compute. reflexivity.
  - repeat split.
Defined.

(** C9. A package line that finds the buffer empty still prints a suite:
    the suite-started line and right after it the suite-finished line. *)
Theorem empty_package_suite (st : state) (input pkg : string) :
  packageFinishedLine input pkg ->
  packageTestBuffer st = [] ->
  step st input =
  Running (mkState (heap st) [] None
             (stdout st ++ suiteStarted pkg ++ suiteFinished pkg)).
Proof.
  intros (Hc & Hr & Hf & verdict & Hp) Hb.
  unfold step. rewrite Hc, Hr, Hf, Hp, Hb.
  now rewrite flushPackage_blocks.
Qed.

Lemma empty_package_suite_witness :
  packageFinishedLine demoPackageLine "pkg" /\
  packageTestBuffer initial = [] /\
  step initial demoPackageLine =
  Running (mkState (heap initial) [] None
             (stdout initial ++ suiteStarted "pkg" ++ suiteFinished "pkg")).
Proof.
  split; [|split; [reflexivity|]].
  - unfold packageFinishedLine. repeat split; try (vm_compute; reflexivity).
    exists "ok". vm_compute. reflexivity.
  - apply (empty_package_suite initial demoPackageLine "pkg").
    + unfold packageFinishedLine. repeat split; try (vm_compute; reflexivity).
      exists "ok". vm_compute. reflexivity.
    + reflexivity.
Defined.

(** C10. A record of the buffer that saw no finish line (its status is
    still empty) is flushed as its testStarted line followed by a
    testFinished line of duration 0: no output, no testFailed and no
    testIgnored line. *)
Theorem pending_record_flush (lines : list string) (st : state) (p : ptr) :
  main lines = Running st ->
  In p (packageTestBuffer st) ->
  status (deref (heap st) p) = "" ->
  flush (deref (heap st) p) =
  testStarted (name (deref (heap st) p))
  ++ testFinished (name (deref (heap st) p)) 0.
Proof.
  intros Hmain Hin Hst.
  apply valid_main in Hmain as [Vb _ Vp].
  destruct (Vp p (Vb p Hin) Hst) as [Ho Hd].
  unfold flush, testStarted, testFinished. rewrite Hst, Ho, Hd. cbn.
  now rewrite !append_assoc.
Qed.

Lemma pending_record_flush_witness :
  exists st,
    main pendingLines = Running st /\
    In 0%nat (packageTestBuffer st) /\
    status (deref (heap st) 0%nat) = "" /\
    flush (deref (heap st) 0%nat) =
    testStarted (name (deref (heap st) 0%nat))
    ++ testFinished (name (deref (heap st) 0%nat)) 0.
Proof.
  eexists. split; [vm_compute; reflexivity|].
  split; [left; reflexivity|]. split; [reflexivity|].
  eapply (pending_record_flush pendingLines).
  - vm_compute. reflexivity.
  - left. reflexivity.
  - reflexivity.
Defined.

(** ** Finish lines *)

(** C2, as the code has it. A finish line for a name that no record of
    the buffer bears makes the loop panic at once: nothing more is printed,
    no later line is read, and the text of the panic is the fixed hint
    [panicText], whatever the name. *)
Theorem unknown_test_panics
    (st : state) (input status_ name_ literal : string) (rest : list string) :
  testFinishedLine input status_ name_ literal ->
  findTest (heap st) name_ (packageTestBuffer st) = None ->
  loop (input :: rest) st = Panicked panicText st.
Proof.
  intros (Hc & Hr & Hf) Hn. cbn [loop]. unfold step.
  now rewrite Hc, Hr, Hf, Hn.
Qed.

Lemma unknown_test_panics_witness :
  testFinishedLine orphanLine "PASS" "TestFoo" "0.01" /\
  findTest (heap initial) "TestFoo" (packageTestBuffer initial) = None /\
  loop (orphanLine :: ["never read"]) initial = Panicked panicText initial.
Proof.
  split; [repeat split|]. split; [reflexivity|].
  apply (unknown_test_panics initial orphanLine "PASS" "TestFoo" "0.01").
  - repeat split.
  - reflexivity.
Defined.

(** C2, as stated, fails: the text of the panic does not name the test. *)
Lemma unknown_test_diagnostic_counterexample :
  testFinishedLine orphanLine "PASS" "TestFoo" "0.01" /\
  findTest (heap initial) "TestFoo" (packageTestBuffer initial) = None /\
  ~ (exists msg st, main [orphanLine] = Panicked msg st
                    /\ Contains msg "TestFoo" = true).
Proof.
  split; [repeat split|]. split; [reflexivity|].
  intros (msg & st & H & Hc).
  vm_compute in H. injection H as <- <-. vm_compute in Hc. discriminate.
Qed.

(** C1. The code at the failing input: a finish line with status PASS
    leaves the capturing pointer on the test that failed before it, and the
    next line goes to the output of that test instead of being printed. *)
Theorem pass_finish_keeps_capturing :
  testFinishedLine "--- PASS: TestB (0.02s)" "PASS" "TestB" "0.02" /\
  exists st st',
    main interleavedLines = Running st /\
    capturingTest st = Some 0%nat /\
    name (deref (heap st) 0%nat) = "TestA" /\
    step st "    b_test.go:9: log of TestB" = Running st' /\
    output (deref (heap st') 0%nat) = ["    b_test.go:9: log of TestB"] /\
    stdout st' = stdout st.
Proof.
  split; [repeat split|].
  do 2 eexists. split; [vm_compute; reflexivity|].
  repeat split.
Qed.

(** In general: a finish line whose status is not FAIL leaves the capturing
    pointer as it was. *)
Lemma finish_keeps_capturing (st st' : state) (input s n d : string) (p : ptr) :
  testFinishedLine input s n d -> s <> "FAIL" ->
  capturingTest st = Some p ->
  step st input = Running st' ->
  capturingTest st' = Some p.
Proof.
  intros (Hc & Hr & Hf) Hs Hp. unfold step. rewrite Hc, Hr, Hf.
  destruct (findTest _ _ _) as [test|]; [|discriminate].
  intros [= <-]. cbn [capturingTest].
  destruct (Nat.lt_ge_cases test (length (heap st))) as [Hlt|Hge].
  - rewrite deref_modify_eq by (now rewrite length_modify). cbn.
    destruct (String.eqb_spec s "FAIL"); [contradiction|assumption].
  - unfold modify at 1. rewrite list_insert_ge by (rewrite length_modify; lia).
    unfold modify. rewrite list_insert_ge by lia.
    destruct (String.eqb _ _) eqn:E; [|assumption].
    revert E. unfold deref. rewrite lookup_ge_None_2 by lia. discriminate.
Qed.

(** ** The duration literal *)

Lemma readDigits_sawdigits (s : string) (acc : Strconv.scanned) :
  count isDigit s = 0%nat ->
  Strconv.sawdigits (Strconv.readDigits s acc) = Strconv.sawdigits acc.
Proof.
  revert acc. induction s as [|c t IH]; intros acc; simpl; [reflexivity|].
  unfold isDigit at 1.
  destruct (Z.eqb_spec (Utf8.byte c) 46) as [E|E].
  - rewrite E. simpl. intros H.
    destruct (Strconv.sawdot acc); [reflexivity|]. now rewrite IH.
  - destruct ((48 <=? Utf8.byte c) && (Utf8.byte c <=? 57)); simpl;
      [discriminate|reflexivity].
Qed.

Lemma readDigits_rest (s : string) (acc : Strconv.scanned) :
  (2 <= count isDot s + (if Strconv.sawdot acc then 1 else 0))%nat ->
  Strconv.rest (Strconv.readDigits s acc) <> "".
Proof.
  revert acc. induction s as [|c t IH]; intros acc; simpl.
  - destruct (Strconv.sawdot acc); lia.
  - unfold isDot at 1.
    destruct (Z.eqb_spec (Utf8.byte c) 46) as [E|E].
    + destruct (Strconv.sawdot acc) eqn:D; simpl; [discriminate|].
      intros H. apply IH. simpl. lia.
    + destruct ((48 <=? Utf8.byte c) && (Utf8.byte c <=? 57)); simpl;
        [|discriminate].
      intros H. apply IH. simpl. assumption.
Qed.

Lemma ParseFloat32_malformed (literal : string) :
  malformed literal ->
  Strconv.ParseFloat32 literal = (S754_zero false, Some Strconv.ErrSyntax).
Proof.
  intros [H|H]; unfold Strconv.ParseFloat32.
  - rewrite readDigits_sawdigits by assumption. reflexivity.
  - pose proof (readDigits_rest literal
                  (Strconv.mkScanned 0 0 false false literal)) as R.
    simpl in R. specialize (R ltac:(lia)).
    destruct (Strconv.rest _); [contradiction|].
    simpl. now rewrite orb_true_r.
Qed.

(** C8, as the code has it. A finish line whose duration literal is not
    a decimal number (no digit, or more than one point) sets the duration of
    its record to 0.0; the loop goes on and nothing is printed. *)
Theorem malformed_duration_is_zero
    (lines : list string) (st : state) (input status_ name_ literal : string)
    (test : ptr) :
  main lines = Running st ->
  testFinishedLine input status_ name_ literal ->
  findTest (heap st) name_ (packageTestBuffer st) = Some test ->
  malformed literal ->
  Strconv.ParseFloat32 literal = (S754_zero false, Some Strconv.ErrSyntax) /\
  exists st',
    step st input = Running st' /\
    durationSec (deref (heap st') test) = S754_zero false /\
    status (deref (heap st') test) = status_ /\
    stdout st' = stdout st.
Proof.
  intros Hmain (Hc & Hr & Hf) Hfind Hm.
  apply valid_main in Hmain as [Vb _ _].
  apply findTest_In in Hfind as Hin. destruct Hin as [Hin _]. apply Vb in Hin.
  pose proof (ParseFloat32_malformed literal Hm) as P.
  split; [assumption|].
  unfold step. rewrite Hc, Hr, Hf, Hfind, P.
  eexists. split; [reflexivity|]. cbn [heap stdout fst].
  rewrite !deref_modify_eq by (rewrite ?length_modify; assumption).
  repeat split.
Qed.

Lemma malformed_duration_is_zero_witness :
  main demoLines = Running demoState /\
  testFinishedLine twoPointsLine "PASS" "TestB" "1.2.3" /\
  findTest (heap demoState) "TestB" (packageTestBuffer demoState) = Some 1%nat /\
  malformed "1.2.3" /\
  Strconv.ParseFloat32 "1.2.3" = (S754_zero false, Some Strconv.ErrSyntax) /\
  exists st',
    step demoState twoPointsLine = Running st' /\
    durationSec (deref (heap st') 1%nat) = S754_zero false /\
    status (deref (heap st') 1%nat) = "PASS" /\
    stdout st' = stdout demoState.
Proof.
  split; [vm_compute; reflexivity|].
  split; [repeat split|]. split; [reflexivity|].
  split; [right; vm_compute; lia|].
  apply (malformed_duration_is_zero demoLines demoState twoPointsLine
           "PASS" "TestB" "1.2.3" 1%nat).
  - vm_compute. reflexivity.
  - repeat split.
  - reflexivity.
  - right. vm_compute. lia.
Defined.

(** C8, as stated, fails: a literal of the grammar that is too large for
    binary32 fails to parse ([ErrRange]) and leaves the duration infinite,
    not 0.0. *)
Lemma out_of_range_duration_counterexample :
  testFinishedLine hugeLine "PASS" "TestB" hugeLiteral /\
  Strconv.ParseFloat32 hugeLiteral
    = (S754_infinity false, Some Strconv.ErrRange) /\
  exists st',
    main (demoLines ++ [hugeLine]) = Running st' /\
    durationSec (deref (heap st') 1%nat) = S754_infinity false /\
    durationSec (deref (heap st') 1%nat) <> S754_zero false.
Proof.
  split; [repeat split; vm_compute; reflexivity|].
  split; [vm_compute; reflexivity|].
  eexists. split; [vm_compute; reflexivity|].
  split; [reflexivity|discriminate].
Qed.

(** ** Prefixes and runs *)

Lemma stripPrefix_Some (pre s r : string) :
  stripPrefix pre s = Some r <-> s = pre ++ r.
Proof.
  revert s. induction pre as [|a pre IH]; intros s; simpl.
  - split; [now intros [= ->] | now intros ->].
  - destruct s as [|b s]; [split; discriminate|].
    destruct (Ascii.eqb_spec a b) as [->|Hne].
    + rewrite IH. split; [now intros -> | now intros [= ->]].
    + split; [discriminate | intros [= -> _]; contradiction].
Qed.

Lemma stripPrefix_app (pre r : string) : stripPrefix pre (pre ++ r) = Some r.
Proof. now apply stripPrefix_Some. Qed.

Lemma span_app (p : ascii -> bool) (s : string) :
  fst (span p s) ++ snd (span p s) = s.
Proof.
  induction s as [|c t IH]; simpl; [reflexivity|].
  destruct (p c); [|reflexivity].
  destruct (span p t) as [a b]. simpl in *. now rewrite IH.
Qed.

Lemma span_all (p : ascii -> bool) (s : string) :
  allb p (fst (span p s)) = true.
Proof.
  induction s as [|c t IH]; simpl; [reflexivity|].
  destruct (p c) eqn:E; [|reflexivity].
  destruct (span p t) as [a b]. simpl in *. now rewrite E.
Qed.

Lemma span_rest (p : ascii -> bool) (s : string) : stopsAt p (snd (span p s)).
Proof.
  induction s as [|c t IH]; simpl; [exact I|].
  destruct (p c) eqn:E; [|exact E].
  destruct (span p t) as [a b]. exact IH.
Qed.

Lemma span_exact (p : ascii -> bool) (a b : string) :
  allb p a = true -> stopsAt p b -> span p (a ++ b) = (a, b).
Proof.
  intros Ha Hb. induction a as [|c a IH]; simpl in *.
  - destruct b as [|c b]; [reflexivity|]. simpl in Hb. simpl. now rewrite Hb.
  - apply andb_true_iff in Ha as [Hc Ha]. rewrite Hc. now rewrite IH.
Qed.

Lemma span_longest (p : ascii -> bool) (a b : string) :
  allb p a = true ->
  (String.length a <= String.length (fst (span p (a ++ b))))%nat.
Proof.
  intros Ha. induction a as [|c a IH]; simpl in *; [lia|].
  apply andb_true_iff in Ha as [Hc Ha]. rewrite Hc.
  specialize (IH Ha). destruct (span p (a ++ b)). simpl in *. lia.
Qed.

Lemma allb_app (p : ascii -> bool) (a b : string) :
  allb p (a ++ b) = allb p a && allb p b.
Proof.
  induction a as [|c a IH]; simpl; [reflexivity|].
  now rewrite IH, andb_assoc.
Qed.

Lemma allb_take (p : ascii -> bool) (n : nat) (s : string) :
  allb p s = true -> allb p (Utf8.take n s) = true.
Proof.
  revert s. induction n as [|n IH]; intros [|c s]; simpl; try reflexivity.
  intros H. apply andb_true_iff in H as [-> H]. now apply IH.
Qed.

Lemma take_app_le (n : nat) (a b : string) :
  (n <= String.length a)%nat -> Utf8.take n (a ++ b) = Utf8.take n a.
Proof.
  revert a. induction n as [|n IH]; intros [|c a]; simpl; try reflexivity;
    try lia.
  intros H. rewrite IH by lia. reflexivity.
Qed.

Lemma length_take (n : nat) (s : string) :
  (n <= String.length s)%nat -> String.length (Utf8.take n s) = n.
Proof.
  revert s. induction n as [|n IH]; intros [|c s]; simpl; try reflexivity;
    try lia.
  intros H. rewrite IH by lia. reflexivity.
Qed.

Lemma isEmpty_false (s : string) : isEmpty s = false <-> s <> "".
Proof. destruct s; simpl; split; congruence. Qed.

(** ** The pattern of the failure message *)

Lemma errorTail_Some (k : nat) (r m : string) :
  Regexp.errorTail k r = Some m ->
  exists j, (1 <= j <= k)%nat /\
    m = Utf8.take j r ++ fst (span Regexp.notNewline (Utf8.drop j r)) /\
    fst (span Regexp.notNewline (Utf8.drop j r)) <> "".
Proof.
  induction k as [|k IH]; [discriminate|].
  cbn [Regexp.errorTail].
  destruct (isEmpty _) eqn:E.
  - intros H. destruct (IH H) as (j & Hj & Hm). exists j. split; [lia|assumption].
  - intros [= <-]. exists (S k). split; [lia|]. split; [reflexivity|].
    now apply isEmpty_false.
Qed.

Lemma errorTail_None (k : nat) (r : string) (j : nat) :
  Regexp.errorTail k r = None -> (1 <= j <= k)%nat ->
  fst (span Regexp.notNewline (Utf8.drop j r)) = "".
Proof.
  induction k as [|k IH]; [lia|].
  cbn [Regexp.errorTail].
  destruct (isEmpty _) eqn:E; [|discriminate].
  intros H Hj. destruct (Nat.eq_dec j (S k)) as [->|Hne].
  - destruct (fst _); [reflexivity|discriminate].
  - apply IH; [assumption|lia].
Qed.

Lemma errorHere_sound (s m : string) :
  Regexp.errorHere s = Some m -> ErrorMatch s m.
Proof.
  unfold Regexp.errorHere.
  destruct (stripPrefix "Error:" s) as [r|] eqn:P; [|discriminate].
  apply stripPrefix_Some in P. subst s.
  destruct (Regexp.errorTail _ r) as [m'|] eqn:T; [|discriminate].
  intros [= <-].
  apply errorTail_Some in T as (j & Hj & -> & Hbody).
  pose proof (span_app Regexp.isSpace r) as Hr.
  pose proof (span_all Regexp.isSpace r) as Hws.
  pose proof (span_app Regexp.notNewline (Utf8.drop j r)) as Hd.
  exists (Utf8.take j r), (fst (span Regexp.notNewline (Utf8.drop j r))),
         (snd (span Regexp.notNewline (Utf8.drop j r))).
  repeat split.
  - cbn [String.append]. do 6 f_equal.
    rewrite append_assoc, Hd. symmetry. apply take_drop.
  - intros E. apply (f_equal String.length) in E.
    rewrite <- Hr in E. rewrite take_app_le, length_take in E by lia.
    simpl in E. lia.
  - rewrite <- Hr. rewrite take_app_le by lia. now apply allb_take.
  - assumption.
  - apply span_all.
  - apply span_rest.
Qed.

Lemma errorHere_complete (s m : string) :
  Regexp.errorHere s = None -> ~ ErrorMatch s m.
Proof.
  unfold Regexp.errorHere.
  intros H (ws & body & rest & -> & -> & Hws & Hsp & Hbody & Hnl & Hrest).
  rewrite !append_assoc in H. rewrite stripPrefix_app in H.
  destruct (Regexp.errorTail _ _) eqn:T; [discriminate|].
  apply (errorTail_None _ _ (String.length ws)) in T.
  - rewrite drop_app_exact in T.
    rewrite span_exact in T by assumption. simpl in T. contradiction.
  - split.
    + destruct ws; [contradiction | simpl; lia].
    + now apply span_longest.
Qed.

Lemma errorHere_nonempty (s m : string) :
  Regexp.errorHere s = Some m -> m <> "".
Proof.
  unfold Regexp.errorHere.
  destruct (stripPrefix _ _); [|discriminate].
  destruct (Regexp.errorTail _ _); [|discriminate].
  now intros [= <-].
Qed.

Lemma FindString_spec (s : string) :
  (Regexp.errorPattern_FindString s <> "" /\
   FirstErrorMatch s (Regexp.errorPattern_FindString s))
  \/ (Regexp.errorPattern_FindString s = "" /\ NoErrorMatch s).
Proof.
  induction s as [|c t IH].
  - cbn [Regexp.errorPattern_FindString].
    destruct (Regexp.errorHere "") as [m|] eqn:H; [discriminate H|].
    right. split; [reflexivity|].
    intros pre post m E. destruct pre; [|discriminate].
    simpl in E. subst post. now apply errorHere_complete.
  - cbn [Regexp.errorPattern_FindString].
    destruct (Regexp.errorHere (String c t)) as [m|] eqn:H.
    + left. split; [eapply errorHere_nonempty; eassumption|].
      exists "", (String c t). split; [reflexivity|].
      split; [now apply errorHere_sound|].
      intros pre' post' m' _ Hlt. simpl in Hlt. lia.
    + destruct IH as [[Hne (pre & post & E & Hm & Hfirst)] | [He Hno]].
      * left. split; [assumption|].
        exists (String c pre), post. split; [simpl; now rewrite E|].
        split; [assumption|].
        intros pre' post' m' E' Hlt.
        destruct pre' as [|c' pre'].
        -- simpl in E'. subst post'. now apply errorHere_complete.
        -- simpl in E'. injection E' as -> E'.
           apply (Hfirst pre' post' m' E'). simpl in Hlt. lia.
      * right. split; [assumption|].
        intros pre' post' m' E'.
        destruct pre' as [|c' pre'].
        -- simpl in E'. subst post'. now apply errorHere_complete.
        -- simpl in E'. injection E' as -> E'. now apply (Hno pre' post' m').
Qed.

(** ** The first line of the joined output *)

Lemma notNewline_eqb (c : ascii) :
  Regexp.notNewline c = true -> Ascii.eqb c LF = false.
Proof.
  unfold Regexp.notNewline. intros H.
  destruct (Ascii.eqb_spec c LF) as [->|]; [discriminate H|reflexivity].
Qed.

Lemma Split_line (x : string) :
  allb Regexp.notNewline x = true -> Strings.Split x LF = [x].
Proof.
  induction x as [|c x IH]; simpl; [reflexivity|].
  intros H. apply andb_true_iff in H as [Hc Hx].
  rewrite (notNewline_eqb c Hc), (IH Hx). reflexivity.
Qed.

Lemma Split_first_line (x r : string) :
  allb Regexp.notNewline x = true ->
  Strings.Split (x ++ String LF r) LF = x :: Strings.Split r LF.
Proof.
  induction x as [|c x IH]; simpl; [reflexivity|].
  intros H. apply andb_true_iff in H as [Hc Hx].
  rewrite (notNewline_eqb c Hc), (IH Hx). reflexivity.
Qed.

Lemma first_line_of_join (l : list string) :
  Forall (fun x => allb Regexp.notNewline x = true) l ->
  hd "" (Strings.Split (Strings.Join l newline) LF) = hd "" l.
Proof.
  unfold Strings.Join. intros H.
  destruct H as [|x l Hx Hl]; [reflexivity|].
  destruct l as [|y l].
  - simpl. now rewrite Split_line.
  - change (String.concat newline (x :: y :: l))
      with (x ++ String LF (String.concat newline (y :: l))).
    now rewrite Split_first_line.
Qed.

Example failure_message_examples :
  failureMessage (Strings.Join (output failedRecord) newline)
    = "Error:  boom (code 3)" /\
  failureMessage "   no marker here  " = "no marker here" /\
  failureMessage ("Error:" ++ newline ++ "next line") =
    "Error:" ++ newline ++ "next line" /\
  failureMessage "" = "".
Proof. vm_compute. repeat split. Qed.

(** ** A package whose tests all start, then all finish *)

(** *** The start lines *)

Lemma loop_starts (starts : list string) (tests : list testCase)
    (rest : list string) (st : state) :
  Forall2 (fun l t => testStartedLine l (caseName t)) starts tests ->
  capturingTest st = None ->
  loop (starts ++ rest)%list st =
  loop rest
    (mkState (heap st ++ map (fun t => fresh (caseName t)) tests)%list
             (packageTestBuffer st
                ++ seq (length (heap st)) (length tests))%list
             None (stdout st)).
Proof.
  intros H. revert st. induction H as [|l t starts tests [Hc Hr] _ IH];
    intros st Hcap.
  - simpl. rewrite !app_nil_r. destruct st; simpl in *; now subst.
  - cbn [app loop]. unfold step. rewrite Hc, Hr.
    rewrite IH by reflexivity. cbn [heap packageTestBuffer stdout].
    rewrite <- !app_assoc, length_app. cbn [length map seq app].
    now rewrite Nat.add_1_r.
Qed.

(** *** The finish lines *)

Lemma lookup_map {A B : Type} (f : A -> B) (l : list A) (i : nat) :
  map f l !! i = option_map f (l !! i).
Proof.
  revert i. induction l as [|x l IH]; intros [|i]; simpl; try reflexivity.
  apply IH.
Qed.

Lemma name_applyCase (t : testCase) (r : testResult) :
  name (applyCase t r) = name r.
Proof. unfold applyCase. now destruct (String.eqb _ _). Qed.

Lemma map_name_applyCase (t : testCase) (h : store) :
  map name (map (applyCase t) h) = map name h.
Proof. rewrite map_map. apply map_ext. apply name_applyCase. Qed.

Lemma findTest_seq (h : store) (n : string) (k m i : nat) (r : testResult) :
  (k <= i < k + m)%nat -> h !! i = Some r -> name r = n ->
  (forall j r', (k <= j < i)%nat -> h !! j = Some r' -> name r' <> n) ->
  findTest h n (seq k m) = Some i.
Proof.
  revert k. induction m as [|m IH]; intros k Hi Hl Hn Hfirst; [lia|].
  cbn [seq findTest].
  destruct (Nat.eq_dec k i) as [->|Hne].
  - rewrite (deref_lookup _ _ _ Hl), Hn, String.eqb_refl. reflexivity.
  - assert (Hk : (k < length h)%nat).
    { apply lookup_lt_Some in Hl. lia. }
    destruct (lookup_lt_is_Some_2 h k Hk) as [r' Hr'].
    rewrite (deref_lookup _ _ _ Hr').
    destruct (String.eqb_spec (name r') n) as [E|E].
    + exfalso. apply (Hfirst k r'); [lia|assumption|assumption].
    + apply IH; try assumption; [lia|].
      intros j r'' Hj. apply Hfirst. lia.
Qed.

Lemma NoDup_names_lookup (h : store) (i j : nat) (r r' : testResult) :
  NoDup (map name h) -> h !! i = Some r -> h !! j = Some r' ->
  name r = name r' -> i = j.
Proof.
  intros Hnd Hi Hj E.
  apply (NoDup_lookup (map name h) i j (name r)); [assumption| |].
  - rewrite lookup_map, Hi. reflexivity.
  - rewrite lookup_map, Hj. simpl. now rewrite E.
Qed.

Lemma map_applyCase_insert (t : testCase) (h : store) (i : nat) (r : testResult) :
  NoDup (map name h) -> h !! i = Some r -> name r = caseName t ->
  map (applyCase t) h = <[i := applyCase t r]> h.
Proof.
  intros Hnd Hi Hn. apply list_eq. intros j.
  rewrite lookup_map.
  destruct (Nat.eq_dec i j) as [<-|Hne].
  - rewrite list_lookup_insert_eq by (eapply lookup_lt_Some; eassumption).
    now rewrite Hi.
  - rewrite list_lookup_insert_ne by assumption.
    destruct (h !! j) as [r'|] eqn:Hj; [|reflexivity]. simpl. f_equal.
    unfold applyCase.
    destruct (String.eqb_spec (name r') (caseName t)) as [E|E]; [|reflexivity].
    exfalso. apply Hne. eapply NoDup_names_lookup; try eassumption. congruence.
Qed.

Lemma step_finish (st : state) (l : string) (t : testCase) :
  testFinishedLine l (caseStatus t) (caseName t) (caseLiteral t) ->
  NoDup (map name (heap st)) ->
  packageTestBuffer st = seq 0 (length (heap st)) ->
  In (caseName t) (map name (heap st)) ->
  exists c,
    step st l =
    Running (mkState (map (applyCase t) (heap st)) (packageTestBuffer st)
                     c (stdout st)).
Proof.
  intros (Hc & Hr & Hf) Hnd Hbuf Hin.
  apply in_map_iff in Hin as (r & Hn & Hin).
  apply list_elem_of_In, list_elem_of_lookup in Hin as [i Hi].
  assert (Hlt : (i < length (heap st))%nat) by (eapply lookup_lt_Some; eassumption).
  assert (Hfind : findTest (heap st) (caseName t) (packageTestBuffer st) = Some i).
  { rewrite Hbuf. apply (findTest_seq _ _ _ _ _ r); try assumption; [lia|].
    intros j r' Hj Hj' E.
    assert (i = j) by (eapply NoDup_names_lookup; try eassumption; congruence).
    lia. }
  unfold step. rewrite Hc, Hr, Hf, Hfind.
  eexists. f_equal. f_equal.
  rewrite (map_applyCase_insert t (heap st) i r Hnd Hi Hn).
  unfold modify at 1.
  rewrite deref_modify_eq by assumption.
  unfold modify. rewrite list_insert_insert_eq.
  f_equal. rewrite (deref_lookup _ _ _ Hi).
  unfold applyCase, set_status, set_durationSec. cbn.
  now rewrite Hn, String.eqb_refl.
Qed.

Lemma loop_finishes (finishes : list string) (order : list testCase)
    (rest : list string) (st : state) :
  Forall2 (fun l t => testFinishedLine l (caseStatus t) (caseName t)
                        (caseLiteral t)) finishes order ->
  NoDup (map name (heap st)) ->
  packageTestBuffer st = seq 0 (length (heap st)) ->
  (forall t, In t order -> In (caseName t) (map name (heap st))) ->
  exists c,
    loop (finishes ++ rest)%list st =
    loop rest
      (mkState (fold_left (fun h t => map (applyCase t) h) order (heap st))
               (packageTestBuffer st) c (stdout st)).
Proof.
  intros H. revert st.
  induction H as [|l t finishes order Hl _ IH]; intros st Hnd Hbuf Hin.
  - exists (capturingTest st). simpl. now destruct st.
  - destruct (step_finish st l t Hl Hnd Hbuf (Hin t (or_introl eq_refl)))
      as [c Hstep].
    cbn [app loop]. rewrite Hstep.
    destruct (IH (mkState (map (applyCase t) (heap st)) (packageTestBuffer st)
                          c (stdout st))) as [c' Hloop].
    + cbn [heap]. now rewrite map_name_applyCase.
    + cbn [heap packageTestBuffer]. now rewrite length_map.
    + cbn [heap]. intros t' Ht'. rewrite map_name_applyCase.
      apply Hin. now right.
    + exists c'. exact Hloop.
Qed.

(** *** The records once every test has finished *)

Lemma fold_applyCase_map (order : list testCase) (h : store) :
  fold_left (fun h t => map (applyCase t) h) order h
  = map (fun r => fold_left (fun r t => applyCase t r) order r) h.
Proof.
  revert h. induction order as [|t order IH]; intros h; simpl.
  - symmetry. apply map_id.
  - rewrite IH, map_map. reflexivity.
Qed.

Lemma fold_applyCase_other (order : list testCase) (r : testResult) :
  (forall t, In t order -> caseName t <> name r) ->
  fold_left (fun r t => applyCase t r) order r = r.
Proof.
  revert r. induction order as [|t order IH]; intros r H; simpl; [reflexivity|].
  assert (E : applyCase t r = r).
  { unfold applyCase. destruct (String.eqb_spec (name r) (caseName t)) as [E|E];
      [|reflexivity].
    exfalso. apply (H t); [now left | congruence]. }
  rewrite E. apply IH. intros t' Ht'. apply H. now right.
Qed.

Lemma fold_applyCase_fresh (order : list testCase) (t0 : testCase)
    (r : testResult) :
  NoDup (map caseName order) -> In t0 order ->
  name r = caseName t0 -> output r = [] ->
  fold_left (fun r t => applyCase t r) order r = finishedRecord t0.
Proof.
  revert r. induction order as [|t order IH]; intros r Hnd Hin Hn Ho;
    [destruct Hin|].
  cbn [map] in Hnd. apply NoDup_cons in Hnd as [Hnotin Hnd].
  cbn [fold_left].
  destruct Hin as [->|Hin].
  - rewrite fold_applyCase_other.
    + unfold applyCase, finishedRecord.
      rewrite Hn, String.eqb_refl, Ho. reflexivity.
    + intros t' Ht' E. apply Hnotin.
      rewrite name_applyCase, Hn in E. rewrite <- E.
      apply list_elem_of_In. now apply in_map.
  - assert (E : applyCase t r = r).
    { unfold applyCase.
      destruct (String.eqb_spec (name r) (caseName t)) as [E|E]; [|reflexivity].
      exfalso. apply Hnotin. rewrite <- E, Hn.
      apply list_elem_of_In. now apply in_map. }
    rewrite E. now apply IH.
Qed.

Lemma deref_all (h : store) : map (deref h) (seq 0 (length h)) = h.
Proof.
  apply list_eq. intros i. rewrite lookup_map.
  destruct (Nat.lt_ge_cases i (length h)) as [Hlt|Hge].
  - rewrite lookup_seq_lt by assumption. simpl.
    destruct (lookup_lt_is_Some_2 h i Hlt) as [r Hr].
    now rewrite (deref_lookup _ _ _ Hr), Hr.
  - rewrite lookup_seq_ge by assumption.
    now rewrite lookup_ge_None_2.
Qed.

Lemma flush_finishedRecord (t : testCase) :
  flush (finishedRecord t) = testBlock durationMs t.
Proof.
  unfold flush, finishedRecord, testBlock, statusLine, testStarted, testFailed,
    testIgnored, testFinished, durationMs.
  cbn [name status output durationSec List.length Nat.ltb Nat.leb].
  destruct (String.eqb (caseStatus t) "PASS");
    [now rewrite !append_assoc|].
  destruct (String.eqb (caseStatus t) "FAIL").
  { change (failureMessage (Strings.Join [] newline)) with "".
    now rewrite !append_assoc. }
  destruct (String.eqb (caseStatus t) "SKIP"); now rewrite !append_assoc.
Qed.

(** *** The duration of a literal [D.DD] *)

Lemma durationWithin_all :
  forallb (fun i => forallb (fun j => forallb (fun k => durationWithin i j k)
                                        (seq 0 10)) (seq 0 10)) (seq 0 10)
  = true.
Proof. vm_compute. reflexivity. Qed.

Lemma byte_ascii_of_nat (m : nat) :
  (m < 256)%nat -> Utf8.byte (ascii_of_nat m) = Z.of_nat m.
Proof.
  intros H. unfold Utf8.byte.
  rewrite <- (nat_ascii_embedding m H) at 2.
  unfold nat_of_ascii. now rewrite N_nat_Z.
Qed.

Lemma digitValue_char (c : ascii) (x : Z) :
  digitValue c = Some x ->
  exists k, (k < 10)%nat /\ c = digitChar k /\ x = Z.of_nat k.
Proof.
  unfold digitValue, isDigit.
  destruct (Z.leb_spec 48 (Utf8.byte c)); [|discriminate].
  destruct (Z.leb_spec (Utf8.byte c) 57); [|discriminate].
  intros [= <-]. exists (Z.to_nat (Utf8.byte c - 48)).
  split; [lia|]. split; [|lia].
  apply byte_inj. unfold digitChar.
  rewrite byte_ascii_of_nat by lia. lia.
Qed.

Lemma duration_of_hundredths (literal : string) (n : Z) :
  hundredths literal = Some n ->
  10 * n - 1 <= durationMs literal <= 10 * n.
Proof.
  unfold hundredths.
  destruct literal as [|a [|p [|b [|c [|]]]]]; try discriminate.
  destruct (isDot p) eqn:P; [|discriminate].
  destruct (digitValue a) as [x|] eqn:A; [|discriminate].
  destruct (digitValue b) as [y|] eqn:B; [|discriminate].
  destruct (digitValue c) as [z|] eqn:C; [|discriminate].
  intros [= <-].
  apply digitValue_char in A as (i & Hi & -> & ->).
  apply digitValue_char in B as (j & Hj & -> & ->).
  apply digitValue_char in C as (k & Hk & -> & ->).
  assert (p = "."%char) as ->.
  { apply byte_inj. unfold isDot in P. now apply Z.eqb_eq in P. }
  pose proof durationWithin_all as H.
  rewrite forallb_forall in H.
  specialize (H i ltac:(apply in_seq; lia)).
  rewrite forallb_forall in H.
  specialize (H j ltac:(apply in_seq; lia)).
  rewrite forallb_forall in H.
  specialize (H k ltac:(apply in_seq; lia)).
  unfold durationWithin in H. fold (literalOf i j k).
  apply andb_true_iff in H as [H1 H2].
  apply Z.leb_le in H1, H2. lia.
Qed.

(** C4, as the code has it. N start lines, then the N finish lines of the
    same tests in any order, then a package line: what is printed is one
    suite with one block per test in the order of the start lines, each
    with the line of its status and, for a literal [D.DD], a duration that
    is the integer part of 1000 times the binary32 number nearest to the
    literal: [round(D.DD*1000)] or one less. *)
Theorem started_then_finished_suite
    (tests order : list testCase) (starts finishes : list string)
    (pkgLine pkg : string) :
  NoDup (map caseName tests) ->
  Forall2 (fun l t => testStartedLine l (caseName t)) starts tests ->
  Permutation order tests ->
  Forall2 (fun l t => testFinishedLine l (caseStatus t) (caseName t)
                        (caseLiteral t)) finishes order ->
  Forall (fun t => hundredths (caseLiteral t) <> None) tests ->
  packageFinishedLine pkgLine pkg ->
  exists st,
    main (starts ++ finishes ++ [pkgLine]) = Running st /\
    stdout st =
      suiteStarted pkg ++ cat (map (testBlock durationMs) tests)
      ++ suiteFinished pkg /\
    Forall (fun t => exists n,
              hundredths (caseLiteral t) = Some n /\
              10 * n - 1 <= durationMs (caseLiteral t) <= 10 * n) tests.
Proof.
  intros Hnd Hstarts Hperm Hfinishes Hlit (Hc & Hr & Hf & verdict & Hp).
  unfold main.
  rewrite (loop_starts starts tests _ initial Hstarts eq_refl).
  cbn [heap packageTestBuffer stdout initial app length].
  set (h1 := map (fun t => fresh (caseName t)) tests).
  assert (Hnames : map name h1 = map caseName tests).
  { unfold h1. rewrite map_map. reflexivity. }
  assert (Hlen : length h1 = length tests) by (unfold h1; apply length_map).
  destruct (loop_finishes finishes order [pkgLine]
              (mkState h1 (seq 0 (length tests)) None "") Hfinishes)
    as [c Hloop].
  { cbn [heap]. now rewrite Hnames. }
  { cbn [heap packageTestBuffer]. now rewrite Hlen. }
  { cbn [heap]. intros t Ht. rewrite Hnames. apply in_map.
    eapply Permutation_in; eassumption. }
  rewrite Hloop. cbn [heap packageTestBuffer stdout loop].
  unfold step. rewrite Hc, Hr, Hf, Hp.
  eexists. split; [reflexivity|]. cbn [stdout heap packageTestBuffer].
  split.
  - rewrite flushPackage_blocks. cbn [String.append]. f_equal. f_equal.
    rewrite fold_applyCase_map.
    set (h2 := map _ h1).
    assert (E : h2 = map finishedRecord tests).
    { unfold h2, h1. rewrite map_map. apply map_ext_in. intros t Ht.
      apply fold_applyCase_fresh; try reflexivity.
      - apply NoDup_ListNoDup.
        eapply Permutation_NoDup; [|apply NoDup_ListNoDup; exact Hnd].
        apply Permutation_map. now apply Permutation_sym.
      - eapply Permutation_in; [|exact Ht]. now apply Permutation_sym. }
    rewrite <- (map_map (deref h2) flush).
    replace (length tests) with (length h2)
      by (rewrite E; apply length_map).
    rewrite deref_all, E, map_map.
    f_equal. apply map_ext. apply flush_finishedRecord.
  - apply Forall_forall. intros t Ht.
    rewrite Forall_forall in Hlit. specialize (Hlit t Ht).
    destruct (hundredths (caseLiteral t)) as [n|] eqn:H; [|contradiction].
    exists n. split; [reflexivity|]. now apply duration_of_hundredths.
Qed.

Lemma started_then_finished_suite_witness :
  NoDup (map caseName suiteTests) /\
  Forall2 (fun l t => testStartedLine l (caseName t)) suiteStarts suiteTests /\
  Permutation suiteOrder suiteTests /\
  Forall2 (fun l t => testFinishedLine l (caseStatus t) (caseName t)
                        (caseLiteral t)) suiteFinishes suiteOrder /\
  Forall (fun t => hundredths (caseLiteral t) <> None) suiteTests /\
  packageFinishedLine demoPackageLine "pkg" /\
  exists st,
    main (suiteStarts ++ suiteFinishes ++ [demoPackageLine]) = Running st /\
    stdout st =
      suiteStarted "pkg" ++ cat (map (testBlock durationMs) suiteTests)
      ++ suiteFinished "pkg" /\
    Forall (fun t => exists n,
              hundredths (caseLiteral t) = Some n /\
              10 * n - 1 <= durationMs (caseLiteral t) <= 10 * n) suiteTests.
Proof.
  assert (H1 : NoDup (map caseName suiteTests)).
  { repeat constructor; simpl; rewrite ?list_elem_of_In; simpl;
      intuition discriminate. }
  assert (H2 : Forall2 (fun l t => testStartedLine l (caseName t))
                 suiteStarts suiteTests).
  { repeat constructor. }
  assert (H3 : Permutation suiteOrder suiteTests).
  { unfold suiteOrder, suiteTests.
    apply Permutation_sym, (Permutation_cons_app [_; _] []), Permutation_refl. }
  assert (H4 : Forall2 (fun l t => testFinishedLine l (caseStatus t)
                 (caseName t) (caseLiteral t)) suiteFinishes suiteOrder).
  { repeat constructor. }
  assert (H5 : Forall (fun t => hundredths (caseLiteral t) <> None) suiteTests).
  { repeat constructor; discriminate. }
  assert (H6 : packageFinishedLine demoPackageLine "pkg").
  { unfold packageFinishedLine. repeat split; try (vm_compute; reflexivity).
    exists "ok". vm_compute. reflexivity. }
  repeat (split; [assumption|]).
  exact (started_then_finished_suite suiteTests suiteOrder suiteStarts
           suiteFinishes demoPackageLine "pkg" H1 H2 H3 H4 H5 H6).
Defined.

(** C4, as stated, fails: the duration is not [round(D.DD*1000)]. *)
Lemma rounded_duration_counterexample :
  testStartedLine "=== RUN   TestA" "TestA" /\
  testFinishedLine "--- PASS: TestA (0.29s)" "PASS" "TestA" "0.29" /\
  packageFinishedLine demoPackageLine "pkg" /\
  roundedMs "0.29" = 290 /\
  durationMs "0.29" = 289 /\
  exists st,
    main ["=== RUN   TestA"; "--- PASS: TestA (0.29s)"; demoPackageLine]
      = Running st /\
    stdout st =
      suiteStarted "pkg"
      ++ testStarted "TestA" ++ testFinished "TestA" 289
      ++ suiteFinished "pkg" /\
    stdout st <>
      suiteStarted "pkg"
      ++ cat (map (testBlock roundedMs) [mkCase "TestA" "PASS" "0.29"])
      ++ suiteFinished "pkg".
Proof.
  split; [repeat split|]. split; [repeat split|].
  split.
  { unfold packageFinishedLine. repeat split; try (vm_compute; reflexivity).
    exists "ok". vm_compute. reflexivity. }
  split; [reflexivity|]. split; [vm_compute; reflexivity|].
  eexists. split; [vm_compute; reflexivity|].
  split; [vm_compute; reflexivity|].
  vm_compute. discriminate.
Qed.

Lemma x04_byte (c : ascii) :
  Fmt.x04 (Utf8.byte c) =
  String "0" (String "0"
    (String (Fmt.hexDigit (Utf8.byte c / 16))
       (String (Fmt.hexDigit (Utf8.byte c mod 16)) ""))).
Proof.
  destruct c as [[] [] [] [] [] [] [] []]; vm_compute; reflexivity.
Qed.

(** C5, as the code has it. [escape] works rune by rune on its input: a
    newline becomes [|n], a carriage return [|r], each of [[ ] | '] is
    preceded by [|]; any other rune whose code point is at most 0x20 or
    from 0x80 to 0xFFFF becomes [|0x] followed by the first byte of its
    encoding as four lowercase hexadecimal digits; every other rune, among
    them those from 0x10000 on, is copied. *)
Theorem escape_rune_by_rune (s : string) :
  escape s = escapeByRune escapedClass s /\
  forall c : ascii,
    Fmt.x04 (Utf8.byte c) =
    String "0" (String "0"
      (String (Fmt.hexDigit (Utf8.byte c / 16))
         (String (Fmt.hexDigit (Utf8.byte c mod 16)) ""))).
Proof. split; [exact (escape_by_rune s) | exact x04_byte]. Qed.

(** C5, as stated, fails: a rune above 0xFFFF is copied, not replaced. *)
Lemma escape_astral_counterexample :
  Utf8.runes grinningFace = [(0x1F600, grinningFace)] /\
  escape grinningFace = grinningFace /\
  escapeByRune unboundedClass grinningFace = "|0x00f0" /\
  escape grinningFace <> escapeByRune unboundedClass grinningFace.
Proof.
  split; [vm_compute; reflexivity|].
  split; [vm_compute; reflexivity|].
  split; [vm_compute; reflexivity|].
  vm_compute. discriminate.
Qed.

Example escape_examples :
  escape "it's [a|b]" = "it|'s|0x0020|[a||b|]" /\
  escape (String LF (String CR "")) = "|n|r" /\
  escape (String (ascii_of_nat 1) "") = "|0x0001" /\
  escape (String (ascii_of_nat 195) (String (ascii_of_nat 169) "")) = "|0x00c3" /\
  escape (String (ascii_of_nat 255) "") = "|0x00ff".
Proof. vm_compute. repeat split. Qed.

(** ** The models on sample inputs *)

Example classification_examples :
  Regexp.cruftPattern "FAIL" = true /\
  Regexp.cruftPattern "PASS " = false /\
  Regexp.testRunPattern "=== RUN TestX extra" = Some "TestX" /\
  Regexp.testRunPattern "=== RUNx" = None /\
  Regexp.testFinishPattern "--- FAIL: TestFoo (0.29s) extra"
    = Some ("FAIL", "TestFoo", "0.29") /\
  Regexp.testFinishPattern "    --- FAIL: TestFoo (0.29s)" = None /\
  Regexp.testFinishPattern "--- FAIL: TestFoo  (0.29s)" = None /\
  Regexp.testFinishPattern "--- FAIL: TestFoo (1..2s)"
    = Some ("FAIL", "TestFoo", "1..2") /\
  Regexp.packageFinishPattern ("FAIL" ++ TAB ++ "pkg/x" ++ TAB ++ "0.01s")
    = Some ("FAIL", "pkg/x") /\
  Regexp.packageFinishPattern ("?   " ++ TAB ++ "pkg/y" ++ TAB ++ "[no test files]")
    = Some ("?", "pkg/y") /\
  Regexp.packageFinishPattern "okay pkg" = None.
Proof. vm_compute. repeat split. Qed.

Example ParseFloat32_examples :
  Strconv.ParseFloat32 "0.5" = (S754_finite false 8388608 (-24), None) /\
  Strconv.ParseFloat32 "." = (S754_zero false, Some Strconv.ErrSyntax) /\
  Strconv.ParseFloat32 "340282356779733661637539395458142568447"
    = (S754_finite false 16777215 104, None) /\
  Strconv.ParseFloat32 "340282356779733661637539395458142568448"
    = (S754_infinity false, Some Strconv.ErrRange) /\
  durationMs "0.02" = 19 /\ durationMs "0.50" = 500 /\ durationMs "1.23" = 1230.
Proof. vm_compute. repeat split. Qed.

Example TrimSpace_examples :
  Strings.TrimSpace ("  " ++ TAB ++ "hello world " ++ TAB) = "hello world" /\
  Strings.TrimSpace "   " = "" /\
  Strings.TrimSpace
    (String (ascii_of_nat 194) (String (ascii_of_nat 160)
       (String "x" (String (ascii_of_nat 227) (String (ascii_of_nat 128)
          (String (ascii_of_nat 128) ""))))))
    = "x" /\
  Strings.TrimSpace (String " " (String "x" (String (ascii_of_nat 160) " ")))
    = String "x" (String (ascii_of_nat 160) "").
Proof. vm_compute. repeat split. Qed.

(** The scenario of a passing and a failing test in one package. *)
Example scenario :
  exists st,
    main ["=== RUN T1"; "--- PASS: T1 (0.01s)"; "=== RUN T2";
          "--- FAIL: T2 (0.02s)"; "Error: boom"; "ok pkg 0.03s"] = Running st /\
    stdout st =
      suiteStarted "pkg"
      ++ testStarted "T1" ++ testFinished "T1" 9
      ++ testStarted "T2" ++ "Error: boom" ++ newline
      ++ testFailed "T2" "Error: boom" ++ testFinished "T2" 19
      ++ suiteFinished "pkg".
Proof. eexists. split; vm_compute; reflexivity. Qed.

(** * Further properties *)

(** ** [findTest] *)

Lemma findTest_spec (h : store) (n : string) (results : list ptr) :
  match findTest h n results with
  | Some p =>
    exists before after,
      results = (before ++ p :: after)%list /\
      name (deref h p) = n /\
      forall q, In q before -> name (deref h q) <> n
  | None => forall q, In q results -> name (deref h q) <> n
  end.
Proof.
  induction results as [|q results IH]; cbn [findTest].
  - intros q [].
  - destruct (String.eqb_spec (name (deref h q)) n) as [E|E].
    + exists [], results. repeat split; [assumption|]. intros q' [].
    + destruct (findTest h n results) as [p|].
      * destruct IH as (before & after & -> & Hn & Hb).
        exists (q :: before), after. repeat split; [assumption|].
        intros q' [<-|Hq']; [assumption | now apply Hb].
      * intros q' [<-|Hq']; [assumption | now apply IH].
Qed.

(** X1. [findTest] returns the first pointer of the slice whose record
    bears the name, and nil exactly when no record of the slice bears it. *)
Theorem findTest_first_match (h : store) (n : string) (results : list ptr) :
  match findTest h n results with
  | Some p =>
    exists before after,
      results = (before ++ p :: after)%list /\
      name (deref h p) = n /\
      forall q, In q before -> name (deref h q) <> n
  | None => forall q, In q results -> name (deref h q) <> n
  end.
Proof. exact (findTest_spec h n results). Qed.

Lemma findTest_None_iff (h : store) (n : string) (results : list ptr) :
  findTest h n results = None <->
  ~ In n (map (fun p => name (deref h p)) results).
Proof.
  pose proof (findTest_spec h n results) as H.
  destruct (findTest h n results) as [p|].
  - split; [discriminate|]. intros Hn. exfalso. apply Hn.
    destruct H as (before & after & -> & E & _).
    rewrite map_app. apply in_or_app. right. left. exact E.
  - split; [|reflexivity]. intros _ Hin.
    apply in_map_iff in Hin as (q & E & Hq). now apply (H q).
Qed.

(** ** Finish lines *)

(** X2. A finish line whose test is found changes one record only, the
    first of the buffer with that name: its status and duration are set
    (again, if it had finished before), its name and output are kept; the
    test captures from then on if it failed; nothing is printed. *)
Theorem finish_line_updates_one_record
    (lines : list string) (st : state) (input status_ name_ literal : string)
    (test : ptr) :
  main lines = Running st ->
  testFinishedLine input status_ name_ literal ->
  findTest (heap st) name_ (packageTestBuffer st) = Some test ->
  exists st',
    step st input = Running st' /\
    stdout st' = stdout st /\
    packageTestBuffer st' = packageTestBuffer st /\
    length (heap st') = length (heap st) /\
    deref (heap st') test =
      mkTestResult (name (deref (heap st) test)) status_
        (output (deref (heap st) test))
        (fst (Strconv.ParseFloat32 literal)) /\
    (forall q, q <> test -> deref (heap st') q = deref (heap st) q) /\
    capturingTest st' =
      if String.eqb status_ "FAIL" then Some test else capturingTest st.
Proof.
  intros Hmain (Hc & Hr & Hf) Hfind.
  apply valid_main in Hmain as [Vb _ _].
  apply findTest_In in Hfind as Hin. destruct Hin as [Hin _]. apply Vb in Hin.
  unfold step. rewrite Hc, Hr, Hf, Hfind.
  eexists. split; [reflexivity|].
  cbn [stdout packageTestBuffer heap capturingTest].
  rewrite !length_modify.
  rewrite !deref_modify_eq by (rewrite ?length_modify; assumption).
  repeat split.
  intros q Hq. rewrite !deref_modify_ne by congruence. reflexivity.
Qed.

Lemma finish_line_updates_one_record_witness :
  main demoLines = Running demoState /\
  testFinishedLine "--- SKIP: TestA (1.5s)" "SKIP" "TestA" "1.5" /\
  findTest (heap demoState) "TestA" (packageTestBuffer demoState) = Some 0%nat /\
  exists st',
    step demoState "--- SKIP: TestA (1.5s)" = Running st' /\
    stdout st' = stdout demoState /\
    packageTestBuffer st' = packageTestBuffer demoState /\
    length (heap st') = length (heap demoState) /\
    deref (heap st') 0%nat =
      mkTestResult (name (deref (heap demoState) 0%nat)) "SKIP"
        (output (deref (heap demoState) 0%nat))
        (fst (Strconv.ParseFloat32 "1.5")) /\
    (forall q, q <> 0%nat -> deref (heap st') q = deref (heap demoState) q) /\
    capturingTest st' =
      if String.eqb "SKIP" "FAIL" then Some 0%nat else capturingTest demoState.
Proof.
  split; [vm_compute; reflexivity|].
  split; [repeat split|]. split; [reflexivity|].
  apply (finish_line_updates_one_record demoLines demoState
           "--- SKIP: TestA (1.5s)" "SKIP" "TestA" "1.5" 0%nat).
  - vm_compute. reflexivity.
  - repeat split.
  - reflexivity.
Defined.

(** ** Lines that are dropped *)

Lemma loop_drop_cruft (lines : list string) (st : state) :
  loop (List.filter (fun l => negb (Regexp.cruftPattern l)) lines) st
  = loop lines st.
Proof.
  revert st. induction lines as [|l lines IH]; intros st; [reflexivity|].
  cbn [List.filter loop].
  destruct (Regexp.cruftPattern l) eqn:C; cbn [negb].
  - unfold step. rewrite C. apply IH.
  - cbn [loop]. destruct (step st l); [apply IH | reflexivity].
Qed.

(** X3. The bare lines [PASS] and [FAIL] count for nothing: with or
    without them the program ends in the same state with the same output,
    also when they come amid the output of a failed test. *)
Theorem cruft_lines_ignored (lines : list string) :
  main (List.filter (fun l => negb (Regexp.cruftPattern l)) lines) = main lines.
Proof. apply loop_drop_cruft. Qed.

(** ** Input without test lines *)

Lemma loop_unclassified (lines : list string) (st : state) :
  Forall unclassified lines ->
  capturingTest st = None ->
  loop lines st =
  Running (mkState (heap st) (packageTestBuffer st) None
             (stdout st ++ passedThrough lines)).
Proof.
  intros H. revert st. induction H as [|l lines (Hc & Hr & Hf & Hp) _ IH];
    intros st Hcap.
  - cbn. rewrite append_nil_r. destruct st; cbn in *; now subst.
  - cbn [loop]. unfold step. rewrite Hc, Hr, Hf, Hp, Hcap.
    rewrite IH by reflexivity.
    cbn [heap packageTestBuffer stdout passedThrough map cat].
    now rewrite !append_assoc.
Qed.

(** X4. On input that has none of the four shapes of line the program
    is the identity: every line is printed as it is, in order, and the
    buffer stays empty. *)
Theorem unclassified_input_passes_through (lines : list string) :
  Forall unclassified lines ->
  main lines = Running (mkState [] [] None (passedThrough lines)).
Proof.
  intros H. unfold main. now rewrite (loop_unclassified lines initial H).
Qed.

Lemma unclassified_input_passes_through_witness :
  Forall unclassified ["# building"; demoCapturedLine; ""] /\
  main ["# building"; demoCapturedLine; ""] =
  Running (mkState [] [] None
             (passedThrough ["# building"; demoCapturedLine; ""])).
Proof.
  split; [repeat constructor|].
  apply (unclassified_input_passes_through
           ["# building"; demoCapturedLine; ""]).
  repeat constructor.
Defined.

(** ** What is printed, and when *)

Lemma step_stdout (st : state) (input : string) :
  exists out, stdout (stateOf (step st input)) = stdout st ++ out.
Proof.
  unfold step.
  destruct (Regexp.cruftPattern input);
    [exists ""; cbn; now rewrite append_nil_r|].
  destruct (Regexp.testRunPattern input);
    [exists ""; cbn; now rewrite append_nil_r|].
  destruct (Regexp.testFinishPattern input) as [[[m1 m2] m3]|].
  { destruct (findTest _ _ _); exists ""; cbn; now rewrite append_nil_r. }
  destruct (Regexp.packageFinishPattern input) as [[m1 m2]|];
    [eexists; reflexivity|].
  destruct (capturingTest st);
    [exists ""; cbn; now rewrite append_nil_r | eexists; reflexivity].
Qed.

Lemma loop_stdout (lines : list string) (st : state) :
  exists out, stdout (stateOf (loop lines st)) = stdout st ++ out.
Proof.
  revert st. induction lines as [|l lines IH]; intros st; cbn [loop].
  - exists "". cbn. now rewrite append_nil_r.
  - destruct (step_stdout st l) as [o1 H1].
    destruct (step st l) as [st1|msg st1]; cbn in H1.
    + destruct (IH st1) as [o2 H2]. exists (o1 ++ o2).
      now rewrite H2, H1, append_assoc.
    + exists o1. exact H1.
Qed.

(** X5. What has been printed stays: the output for a longer input starts
    with the output for any shorter input it extends. *)
Theorem output_only_grows (l1 l2 : list string) :
  exists out,
    stdout (stateOf (main (l1 ++ l2))) = stdout (stateOf (main l1)) ++ out.
Proof.
  unfold main. rewrite loop_app.
  destruct (loop l1 initial) as [st1|msg st1]; cbn [stateOf].
  - apply loop_stdout.
  - exists "". now rewrite append_nil_r.
Qed.

Lemma loop_no_package_line (lines : list string) (st : state) :
  Forall (fun l => forall pkg, ~ packageFinishedLine l pkg) lines ->
  exists passed,
    sublist passed lines /\ Forall unclassified passed /\
    stdout (stateOf (loop lines st)) = stdout st ++ passedThrough passed.
Proof.
  intros H. revert st. induction H as [|l lines Hl _ IH]; intros st.
  - exists []. cbn. rewrite append_nil_r. repeat constructor.
  - cbn [loop]. unfold step.
    assert (Skip : forall st1,
      stdout st1 = stdout st ->
      exists passed, sublist passed (l :: lines) /\ Forall unclassified passed /\
        stdout (stateOf (loop lines st1)) = stdout st ++ passedThrough passed).
    { intros st1 E. destruct (IH st1) as (passed & Hs & Hu & Ho).
      exists passed. split; [now apply sublist_cons|]. split; [assumption|].
      now rewrite Ho, E. }
    destruct (Regexp.cruftPattern l) eqn:C; [now apply Skip|].
    destruct (Regexp.testRunPattern l) eqn:R; [now apply Skip|].
    destruct (Regexp.testFinishPattern l) as [[[m1 m2] m3]|] eqn:F.
    { destruct (findTest _ _ _); [now apply Skip|].
      exists []. cbn. rewrite append_nil_r.
      split; [apply sublist_nil_l|]. split; constructor. }
    destruct (Regexp.packageFinishPattern l) as [[m1 m2]|] eqn:P.
    { exfalso. apply (Hl m2). repeat split; try assumption. now exists m1. }
    destruct (capturingTest st); [now apply Skip|].
    destruct (IH (mkState (heap st) (packageTestBuffer st) None
                          (stdout st ++ l ++ newline)))
      as (passed & Hs & Hu & Ho).
    exists (l :: passed). split; [now apply sublist_skip|].
    split; [constructor; [repeat split; assumption | assumption]|].
    rewrite Ho. cbn [stdout passedThrough map cat].
    now rewrite !append_assoc.
Qed.

(** X6. No package line, no report: on input without a package line the
    program prints no service message at all, whatever tests started,
    finished or failed; all it prints is some of the unclassified lines, as
    they are and in order. *)
Theorem nothing_reported_without_package_line (lines : list string) :
  Forall (fun l => forall pkg, ~ packageFinishedLine l pkg) lines ->
  exists passed,
    sublist passed lines /\ Forall unclassified passed /\
    stdout (stateOf (main lines)) = passedThrough passed.
Proof.
  intros H. destruct (loop_no_package_line lines initial H)
    as (passed & Hs & Hu & Ho).
  exists passed. repeat split; assumption.
Qed.

Lemma nothing_reported_without_package_line_witness :
  Forall (fun l => forall pkg, ~ packageFinishedLine l pkg)
    (demoLines ++ ["    a_test.go:8: boom"])%list /\
  exists passed,
    sublist passed (demoLines ++ ["    a_test.go:8: boom"])%list /\
    Forall unclassified passed /\
    stdout (stateOf (main (demoLines ++ ["    a_test.go:8: boom"])%list))
      = passedThrough passed.
Proof.
  assert (H : Forall (fun l => forall pkg, ~ packageFinishedLine l pkg)
                (demoLines ++ ["    a_test.go:8: boom"])%list).
  { repeat constructor; intros pkg (_ & _ & _ & v & Hp);
      vm_compute in Hp; try discriminate;
      match goal with H : _ /\ _ |- _ => destruct H end. }
  split; [exact H|].
  exact (nothing_reported_without_package_line
           (demoLines ++ ["    a_test.go:8: boom"])%list H).
Defined.

(** ** When the program panics *)

Lemma existsb_eqb_In (n : string) (acc : list string) :
  existsb (String.eqb n) acc = true <-> In n acc.
Proof.
  rewrite existsb_exists. split.
  - intros (x & Hx & E). apply String.eqb_eq in E. now subst.
  - intros H. exists n. split; [assumption | apply String.eqb_refl].
Qed.

Lemma finishesKnown_step (st : state) (l : string) (lines : list string) :
  valid st ->
  match step st l with
  | Running st1 =>
    finishesKnown (l :: lines) (bufferNames st)
    = finishesKnown lines (bufferNames st1)
  | Panicked msg _ =>
    finishesKnown (l :: lines) (bufferNames st) = false /\ msg = panicText
  end.
Proof.
  intros V. destruct (step st l) as [st1|msg st1] eqn:S.
  - rewrite (bufferNames_step st st1 l V S).
    revert S. unfold step. cbn [finishesKnown startedNames].
    destruct (Regexp.cruftPattern l); [reflexivity|].
    destruct (Regexp.testRunPattern l); [reflexivity|].
    destruct (Regexp.testFinishPattern l) as [[[m1 m2] m3]|].
    { destruct (findTest (heap st) m2 (packageTestBuffer st)) eqn:F;
        [|discriminate].
      intros _.
      assert (K : existsb (String.eqb m2) (bufferNames st) = true).
      { apply existsb_eqb_In.
        destruct (in_dec string_dec m2 (bufferNames st)) as [|Hno];
          [assumption|].
        apply findTest_None_iff in Hno. congruence. }
      now rewrite K. }
    destruct (Regexp.packageFinishPattern l) as [[m1 m2]|]; reflexivity.
  - revert S. unfold step. cbn [finishesKnown].
    destruct (Regexp.cruftPattern l); [discriminate|].
    destruct (Regexp.testRunPattern l); [discriminate|].
    destruct (Regexp.testFinishPattern l) as [[[m1 m2] m3]|].
    { destruct (findTest (heap st) m2 (packageTestBuffer st)) eqn:F;
        [discriminate|].
      intros [= <- _]. apply findTest_None_iff in F.
      destruct (existsb (String.eqb m2) (bufferNames st)) eqn:K.
      + apply existsb_eqb_In in K. contradiction.
      + split; reflexivity. }
    destruct (Regexp.packageFinishPattern l) as [[m1 m2]|]; [discriminate|].
    destruct (capturingTest st); discriminate.
Qed.

Lemma loop_finishesKnown (lines : list string) (st : state) :
  valid st ->
  match loop lines st with
  | Running _ => finishesKnown lines (bufferNames st) = true
  | Panicked msg _ =>
    finishesKnown lines (bufferNames st) = false /\ msg = panicText
  end.
Proof.
  revert st. induction lines as [|l lines IH]; intros st V; [reflexivity|].
  cbn [loop].
  pose proof (finishesKnown_step st l lines V) as H.
  destruct (step st l) as [st1|msg st1] eqn:S.
  - rewrite H. apply IH. eapply valid_step; eassumption.
  - exact H.
Qed.

(** X7. The program panics exactly when some finish line names a test
    that has no start line since the last package line before it, and the
    text of the panic is then always the same hint; on any other input it
    reads every line. *)
Theorem panics_iff_unknown_finish (lines : list string) :
  match main lines with
  | Running _ => finishesKnown lines [] = true
  | Panicked msg _ => finishesKnown lines [] = false /\ msg = panicText
  end.
Proof. exact (loop_finishesKnown lines initial valid_initial). Qed.

(** ** More invariants of the loop *)

Lemma tidy_initial : tidy initial.
Proof.
  split; cbn.
  - discriminate.
  - intros p. left. unfold deref. now rewrite lookup_nil.
Qed.

Lemma tidy_step (st st' : state) (input : string) :
  valid st -> tidy st -> step st input = Running st' -> tidy st'.
Proof.
  intros [Vb Vc Vp] [Tc Ts]. unfold step.
  destruct (Regexp.cruftPattern input); [intros [= <-]; now split|].
  destruct (Regexp.testRunPattern input) as [m1|].
  { intros [= <-]. split; cbn.
    - discriminate.
    - intros p. destruct (Nat.lt_ge_cases p (length (heap st))) as [Hlt|Hge].
      + rewrite deref_alloc_old by assumption. apply Ts.
      + destruct (Nat.eq_dec p (length (heap st))) as [->|Hne].
        * rewrite deref_alloc_new. now left.
        * left. unfold deref. rewrite lookup_ge_None_2; [reflexivity|].
          rewrite length_app. cbn. lia. }
  destruct (Regexp.testFinishPattern input) as [[[m1 m2] m3]|] eqn:TF.
  { destruct (findTest (heap st) m2 (packageTestBuffer st)) as [test|] eqn:FT;
      [|discriminate].
    apply findTest_In in FT as [Hin _].
    apply testFinish_status in TF.
    intros [= <-]. split; cbn.
    - intros p. destruct (String.eqb _ _); [now intros [= <-] | apply Tc].
    - intros p. destruct (Nat.eq_dec p test) as [->|Hne].
      + rewrite deref_modify_eq by (rewrite length_modify; now apply Vb).
        cbn. right. exact TF.
      + rewrite !deref_modify_ne by congruence. apply Ts. }
  destruct (Regexp.packageFinishPattern input) as [[m1 m2]|].
  { intros [= <-]. split; cbn; [discriminate | assumption]. }
  destruct (capturingTest st) as [test|] eqn:C.
  - intros [= <-]. split; cbn; try assumption.
    intros p. destruct (Nat.eq_dec p test) as [->|Hne].
    + destruct (Vc test eq_refl) as [Hlt _].
      rewrite deref_modify_eq by assumption. cbn. apply Ts.
    + rewrite deref_modify_ne by congruence. apply Ts.
  - intros [= <-]. split; cbn; assumption.
Qed.

Lemma tidy_loop (lines : list string) (st st' : state) :
  valid st -> tidy st -> loop lines st = Running st' -> tidy st'.
Proof.
  revert st. induction lines as [|l lines IH]; cbn [loop]; intros st V T.
  - now intros [= <-].
  - destruct (step st l) as [st1|] eqn:S; [|discriminate].
    apply IH; [eapply valid_step | eapply tidy_step]; eassumption.
Qed.

(** X8. At any time the test that captures, if there is one, is a test of
    the package being read (its record is in the buffer, so what it captures
    is printed with the next package line), and it has finished: its status
    is PASS, FAIL or SKIP. *)
Theorem capturing_test_is_buffered (lines : list string) (st : state) (p : ptr) :
  main lines = Running st ->
  capturingTest st = Some p ->
  In p (packageTestBuffer st) /\
  (status (deref (heap st) p) = "PASS" \/
   status (deref (heap st) p) = "FAIL" \/
   status (deref (heap st) p) = "SKIP").
Proof.
  intros Hmain Hc.
  pose proof (tidy_loop lines initial st valid_initial tidy_initial Hmain)
    as [Tc Ts].
  apply valid_main in Hmain as [_ Vc _].
  split; [now apply Tc|].
  destruct (Vc p Hc) as [_ Hne].
  destruct (Ts p) as [E|H]; [contradiction | exact H].
Qed.

Lemma capturing_test_is_buffered_witness :
  main demoLines = Running demoState /\
  capturingTest demoState = Some 0%nat /\
  In 0%nat (packageTestBuffer demoState) /\
  (status (deref (heap demoState) 0%nat) = "PASS" \/
   status (deref (heap demoState) 0%nat) = "FAIL" \/
   status (deref (heap demoState) 0%nat) = "SKIP").
Proof.
  split; [vm_compute; reflexivity|]. split; [reflexivity|].
  apply (capturing_test_is_buffered demoLines demoState 0%nat).
  - vm_compute. reflexivity.
  - reflexivity.
Defined.

(** ** One package after another *)

Lemma deref_shift (g h : store) (p : ptr) :
  deref (g ++ h)%list (length g + p)%nat = deref h p.
Proof.
  unfold deref. rewrite lookup_app_r by lia.
  now replace (length g + p - length g)%nat with p by lia.
Qed.

Lemma modify_shift (g h : store) (p : ptr) (f : testResult -> testResult) :
  modify (g ++ h)%list (length g + p)%nat f = (g ++ modify h p f)%list.
Proof. unfold modify. now rewrite deref_shift, insert_app_r. Qed.

Lemma findTest_shift (g h : store) (n : string) (results : list ptr) :
  findTest (g ++ h)%list n (map (Nat.add (length g)) results)
  = option_map (Nat.add (length g)) (findTest h n results).
Proof.
  induction results as [|q results IH]; cbn [map findTest]; [reflexivity|].
  rewrite deref_shift. now destruct (String.eqb _ _).
Qed.

Lemma flushPackage_shift (g h : store) (n : string) (results : list ptr) :
  flushPackage (g ++ h)%list n (map (Nat.add (length g)) results)
  = flushPackage h n results.
Proof.
  unfold flushPackage. rewrite map_map.
  do 4 f_equal. f_equal. f_equal. apply map_ext. intros p.
  now rewrite deref_shift.
Qed.

Lemma step_shift (g : store) (o : string) (st : state) (input : string) :
  step (shiftState g o st) input = shiftOutcome g o (step st input).
Proof.
  unfold step, shiftState. cbn [heap packageTestBuffer capturingTest stdout].
  destruct (Regexp.cruftPattern input); [reflexivity|].
  destruct (Regexp.testRunPattern input) as [m1|].
  { unfold shiftOutcome, shiftState.
    cbn [heap packageTestBuffer capturingTest stdout option_map].
    rewrite List.map_app, length_app, <- app_assoc. reflexivity. }
  destruct (Regexp.testFinishPattern input) as [[[m1 m2] m3]|].
  { rewrite findTest_shift.
    destruct (findTest (heap st) m2 (packageTestBuffer st)) as [test|];
      [|reflexivity].
    unfold shiftOutcome, shiftState.
    cbn [heap packageTestBuffer capturingTest stdout option_map].
    rewrite !modify_shift, deref_shift.
    now destruct (String.eqb _ _). }
  destruct (Regexp.packageFinishPattern input) as [[m1 m2]|].
  { unfold shiftOutcome, shiftState.
    cbn [heap packageTestBuffer capturingTest stdout option_map map].
    rewrite flushPackage_shift, append_assoc. reflexivity. }
  destruct (capturingTest st) as [test|]; unfold shiftOutcome, shiftState;
    cbn [heap packageTestBuffer capturingTest stdout option_map].
  - now rewrite modify_shift.
  - now rewrite append_assoc.
Qed.

Lemma loop_shift (g : store) (o : string) (lines : list string) (st : state) :
  loop lines (shiftState g o st) = shiftOutcome g o (loop lines st).
Proof.
  revert st. induction lines as [|l lines IH]; intros st; [reflexivity|].
  cbn [loop]. rewrite step_shift.
  destruct (step st l); cbn [shiftOutcome]; [apply IH | reflexivity].
Qed.

(** X9. Packages do not interfere.  Once a package line has been read, the
    rest of the input is handled as if it were the whole input: the
    program prints what it had printed followed by what it prints for the
    rest alone, and it panics on the whole exactly when it panics on the
    rest. *)
Theorem packages_are_independent
    (l1 l2 : list string) (pl pkg : string) (st1 : state) :
  packageFinishedLine pl pkg ->
  main (l1 ++ [pl]) = Running st1 ->
  match main l2 with
  | Running st2 =>
    exists st,
      main (l1 ++ [pl] ++ l2) = Running st /\
      stdout st = stdout st1 ++ stdout st2 /\
      bufferNames st = bufferNames st2
  | Panicked msg st2 =>
    exists st,
      main (l1 ++ [pl] ++ l2) = Panicked msg st /\
      stdout st = stdout st1 ++ stdout st2
  end.
Proof.
  intros (Hc & Hr & Hf & verdict & Hp) H1.
  assert (E : st1 = shiftState (heap st1) (stdout st1) initial).
  { unfold main in H1. rewrite loop_app in H1.
    destruct (loop l1 initial) as [st0|]; [|discriminate].
    cbn [loop] in H1. unfold step in H1. rewrite Hc, Hr, Hf, Hp in H1.
    injection H1 as <-. unfold shiftState. cbn.
    now rewrite app_nil_r, append_nil_r. }
  assert (L : main (l1 ++ [pl] ++ l2)
              = shiftOutcome (heap st1) (stdout st1) (main l2)).
  { unfold main in *. rewrite app_assoc, loop_app, H1.
    rewrite E at 1. apply loop_shift. }
  rewrite L. destruct (main l2) as [st2|msg st2]; cbn [shiftOutcome].
  - eexists. split; [reflexivity|]. split; [reflexivity|].
    unfold bufferNames, shiftState. cbn [heap packageTestBuffer].
    rewrite map_map. apply map_ext. intros p. now rewrite deref_shift.
  - eexists. split; reflexivity.
Qed.

Lemma packages_are_independent_witness :
  packageFinishedLine demoPackageLine "pkg" /\
  (exists st1,
     main (demoLines ++ [demoPackageLine]) = Running st1 /\
     match main pendingLines with
     | Running st2 =>
       exists st,
         main (demoLines ++ [demoPackageLine] ++ pendingLines) = Running st /\
         stdout st = stdout st1 ++ stdout st2 /\
         bufferNames st = bufferNames st2
     | Panicked msg st2 =>
       exists st,
         main (demoLines ++ [demoPackageLine] ++ pendingLines)
           = Panicked msg st /\
         stdout st = stdout st1 ++ stdout st2
     end).
Proof.
  assert (H : packageFinishedLine demoPackageLine "pkg").
  { unfold packageFinishedLine. repeat split; try (vm_compute; reflexivity).
    exists "ok". vm_compute. reflexivity. }
  split; [exact H|].
  eexists. split; [vm_compute; reflexivity|].
  eapply (packages_are_independent demoLines pendingLines demoPackageLine "pkg").
  - exact H.
  - vm_compute. reflexivity.
Defined.

(** ** What [escape] makes of a string *)

Lemma escape_nil : escape "" = "".
Proof. reflexivity. Qed.

Lemma escape_cons_ascii (c : ascii) (t : string) :
  Utf8.byte c < 0x80 ->
  escape (String c t) =
  escapeRune Regexp.nonAsciiCharsPattern (Utf8.byte c, String c "")
  ++ escape t.
Proof.
  intros H. rewrite !escape_by_rune. unfold escapeByRune.
  now rewrite runes_ascii.
Qed.

Lemma escape_cons_hi (c : ascii) (t : string) (r : Z) (w : nat) :
  0x80 <= Utf8.byte c ->
  Utf8.DecodeRuneInString (String c t) = (r, w) ->
  escape (String c t) =
  (if Regexp.nonAsciiCharsPattern r then "|0x" ++ Fmt.x04 (Utf8.byte c)
   else String c (Utf8.take (pred w) t))
  ++ escape (Utf8.drop (pred w) t).
Proof.
  intros Hc D. rewrite !escape_by_rune. unfold escapeByRune.
  rewrite runes_cons, D. cbn [map cat].
  destruct (decode_chunk c Hc t r w D) as (_ & Hr & _).
  rewrite escapeRune_plain by (now apply not_special_ge). reflexivity.
Qed.

(** Induction along the runes of a string. *)
Lemma runes_ind (P : string -> Prop) :
  P "" ->
  (forall c t, Utf8.byte c < 0x80 -> P t -> P (String c t)) ->
  (forall c t r w, 0x80 <= Utf8.byte c ->
     Utf8.DecodeRuneInString (String c t) = (r, w) ->
     P (Utf8.drop (pred w) t) -> P (String c t)) ->
  forall s, P s.
Proof.
  intros H0 Hlo Hhi s. induction s as [s IH] using string_length_ind.
  destruct s as [|c t]; [exact H0|].
  destruct (Z.lt_ge_cases (Utf8.byte c) 0x80) as [L|G].
  - apply Hlo; [assumption|]. apply IH. simpl. lia.
  - destruct (Utf8.DecodeRuneInString (String c t)) as [r w] eqn:D.
    apply (Hhi c t r w G D). apply IH.
    pose proof (length_drop_le (pred w) t). simpl. lia.
Qed.

Lemma piece_aboveSpace (c : ascii) :
  allb aboveSpace
    (escapeRune Regexp.nonAsciiCharsPattern (Utf8.byte c, String c "")) = true.
Proof. destruct c as [[] [] [] [] [] [] [] []]; vm_compute; reflexivity. Qed.

Lemma code_aboveSpace (c : ascii) :
  allb aboveSpace ("|0x" ++ Fmt.x04 (Utf8.byte c)) = true.
Proof. destruct c as [[] [] [] [] [] [] [] []]; vm_compute; reflexivity. Qed.

Lemma hi_aboveSpace (m : string) :
  allb hiByte m = true -> allb aboveSpace m = true.
Proof.
  induction m as [|c m IH]; cbn [allb]; [reflexivity|].
  intros H. apply andb_true_iff in H as [Hc Hm].
  rewrite (IH Hm), andb_true_r. unfold hiByte in Hc. unfold aboveSpace.
  apply Z.leb_le in Hc. apply Z.ltb_lt. lia.
Qed.

(** X10. An escaped value has no byte up to 0x20: no newline, no carriage
    return, no other control character and no space, whatever the input,
    so it stays on the line of its service message. *)
Theorem escape_has_no_space_or_control (s : string) :
  allb aboveSpace (escape s) = true.
Proof.
  induction s as [|c t L IH|c t r w G D IH] using runes_ind.
  - reflexivity.
  - rewrite escape_cons_ascii, allb_app, piece_aboveSpace, IH by assumption.
    reflexivity.
  - rewrite (escape_cons_hi c t r w G D), allb_app, IH, andb_true_r.
    destruct (Regexp.nonAsciiCharsPattern r); [apply code_aboveSpace|].
    destruct (decode_chunk c G t r w D) as (_ & _ & _ & Hhi & _).
    apply (hi_aboveSpace (String c (Utf8.take (pred w) t))).
    cbn [allb]. rewrite Hhi, andb_true_r. unfold hiByte. apply Z.leb_le. lia.
Qed.

Lemma piece_wellEscaped (c : ascii) (rest : string) :
  Utf8.byte c < 0x80 ->
  wellEscaped
    (escapeRune Regexp.nonAsciiCharsPattern (Utf8.byte c, String c "") ++ rest)
  = wellEscaped rest.
Proof.
  destruct c as [[] [] [] [] [] [] [] []]; intros H;
    try (vm_compute in H; discriminate H); reflexivity.
Qed.

Lemma code_wellEscaped (c : ascii) (rest : string) :
  wellEscaped (("|0x" ++ Fmt.x04 (Utf8.byte c)) ++ rest) = wellEscaped rest.
Proof. destruct c as [[] [] [] [] [] [] [] []]; reflexivity. Qed.

Lemma hi_wellEscaped (m rest : string) :
  allb hiByte m = true -> wellEscaped (m ++ rest) = wellEscaped rest.
Proof.
  induction m as [|c m IH]; cbn [allb String.append]; [reflexivity|].
  intros H. apply andb_true_iff in H as [Hc Hm].
  unfold hiByte in Hc. apply Z.leb_le in Hc.
  cbn [wellEscaped].
  destruct (Z.eqb_spec (Utf8.byte c) 124); [lia|].
  rewrite not_special_ge by assumption. now apply IH.
Qed.

(** X11. In an escaped value every quote, bracket and bar is part of an
    escape: read from the left, a bar takes the byte after it, and no
    special character is left bare; so a quote of the input never ends the
    attribute. *)
Theorem escape_is_well_escaped (s : string) : wellEscaped (escape s) = true.
Proof.
  induction s as [|c t L IH|c t r w G D IH] using runes_ind.
  - reflexivity.
  - now rewrite escape_cons_ascii, piece_wellEscaped by assumption.
  - rewrite (escape_cons_hi c t r w G D).
    destruct (Regexp.nonAsciiCharsPattern r); [now rewrite code_wellEscaped|].
    destruct (decode_chunk c G t r w D) as (_ & _ & _ & Hhi & _).
    rewrite (hi_wellEscaped (String c (Utf8.take (pred w) t))); [assumption|].
    cbn [allb]. rewrite Hhi, andb_true_r. unfold hiByte. apply Z.leb_le. lia.
Qed.

(** X12. [escape] leaves a string of plain bytes as it is: ASCII bytes
    above the space other than the six special characters. *)
Theorem escape_plain_unchanged (s : string) :
  allb plainByte s = true -> escape s = s.
Proof.
  induction s as [|c t IH]; cbn [allb]; [reflexivity|].
  intros H. apply andb_true_iff in H as [Hc Ht].
  unfold plainByte in Hc.
  apply andb_true_iff in Hc as [Hc Hs]. apply andb_true_iff in Hc as [H1 H2].
  apply Z.ltb_lt in H1, H2. apply negb_true_iff in Hs.
  rewrite escape_cons_ascii, escapeRune_plain, (IH Ht) by assumption.
  unfold Regexp.nonAsciiCharsPattern.
  replace (Utf8.byte c <=? 32) with false by (symmetry; apply Z.leb_gt; lia).
  replace (128 <=? Utf8.byte c) with false by (symmetry; apply Z.leb_gt; lia).
  now rewrite andb_false_r.
Qed.

Lemma escape_plain_unchanged_witness :
  allb plainByte "TestParse/empty_input#01" = true /\
  escape "TestParse/empty_input#01" = "TestParse/empty_input#01".
Proof.
  split; [reflexivity|].
  apply (escape_plain_unchanged "TestParse/empty_input#01"). reflexivity.
Defined.

Lemma piece_unescape (c : ascii) (rest : string) :
  Utf8.byte c < 0x80 ->
  unescape
    (escapeRune Regexp.nonAsciiCharsPattern (Utf8.byte c, String c "") ++ rest)
  = String c (unescape rest).
Proof.
  destruct c as [[] [] [] [] [] [] [] []]; intros H;
    try (vm_compute in H; discriminate H); reflexivity.
Qed.

Lemma unescape_escape_ascii (s : string) :
  allb asciiByte s = true -> unescape (escape s) = s.
Proof.
  induction s as [|c t IH]; cbn [allb]; [reflexivity|].
  intros H. apply andb_true_iff in H as [Hc Ht].
  unfold asciiByte in Hc. apply Z.ltb_lt in Hc.
  now rewrite escape_cons_ascii, piece_unescape, (IH Ht) by assumption.
Qed.

(** X13. On ASCII strings [escape] loses nothing: two different ASCII
    strings have different escaped values. *)
Theorem escape_injective_on_ascii (a b : string) :
  allb asciiByte a = true -> allb asciiByte b = true ->
  escape a = escape b -> a = b.
Proof.
  intros Ha Hb E.
  rewrite <- (unescape_escape_ascii a Ha), <- (unescape_escape_ascii b Hb).
  now rewrite E.
Qed.

Lemma escape_injective_on_ascii_witness :
  allb asciiByte "it's [a|b]" = true /\
  allb asciiByte "it's [a|b]" = true /\
  escape "it's [a|b]" = escape "it's [a|b]" /\
  "it's [a|b]" = "it's [a|b]".
Proof.
  split; [reflexivity|]. split; [reflexivity|]. split; [reflexivity|].
  apply (escape_injective_on_ascii "it's [a|b]" "it's [a|b]"); reflexivity.
Defined.

(** X14. Of a character of two or three bytes [escape] keeps the first byte
    only: two strings that are each one such character with the same first
    byte have the same escaped value. *)
Theorem escape_keeps_first_byte_only
    (c : ascii) (t1 t2 : string) (r1 r2 : Z) :
  Utf8.runes (String c t1) = [(r1, String c t1)] ->
  Utf8.runes (String c t2) = [(r2, String c t2)] ->
  0x80 <= r1 <= 0xFFFF -> 0x80 <= r2 <= 0xFFFF ->
  escape (String c t1) = "|0x" ++ Fmt.x04 (Utf8.byte c) /\
  escape (String c t1) = escape (String c t2).
Proof.
  intros H1 H2 R1 R2.
  assert (E : forall t r, Utf8.runes (String c t) = [(r, String c t)] ->
                0x80 <= r <= 0xFFFF ->
                escape (String c t) = "|0x" ++ Fmt.x04 (Utf8.byte c)).
  { intros t r H R. rewrite escape_by_rune. unfold escapeByRune.
    rewrite H. cbn [map cat].
    rewrite escapeRune_plain by (apply not_special_ge; lia).
    unfold Regexp.nonAsciiCharsPattern.
    replace (128 <=? r) with true by (symmetry; apply Z.leb_le; lia).
    replace (r <=? 65535) with true by (symmetry; apply Z.leb_le; lia).
    rewrite orb_true_r. cbn [firstByte]. now rewrite append_nil_r. }
  rewrite (E t1 r1 H1 R1), (E t2 r2 H2 R2). split; reflexivity.
Qed.

Lemma escape_keeps_first_byte_only_witness :
  Utf8.runes eAcute = [(0xE9, eAcute)] /\
  Utf8.runes eGrave = [(0xE8, eGrave)] /\
  0x80 <= 0xE9 <= 0xFFFF /\ 0x80 <= 0xE8 <= 0xFFFF /\
  escape eAcute = "|0x" ++ Fmt.x04 (Utf8.byte (ascii_of_nat 195)) /\
  escape eAcute = escape eGrave.
Proof.
  split; [reflexivity|]. split; [reflexivity|].
  split; [lia|]. split; [lia|].
  apply (escape_keeps_first_byte_only (ascii_of_nat 195)
           (String (ascii_of_nat 169) "") (String (ascii_of_nat 168) "")
           0xE9 0xE8); try reflexivity; lia.
Defined.

(** X21. After an ASCII string [escape] starts afresh: the escaped value
    of an ASCII string followed by any string is the two escaped values one
    after the other. *)
Theorem escape_app_ascii (a b : string) :
  allb asciiByte a = true -> escape (a ++ b) = escape a ++ escape b.
Proof.
  induction a as [|c a IH]; cbn [allb String.append]; [reflexivity|].
  intros H. apply andb_true_iff in H as [Hc Ha].
  unfold asciiByte in Hc. apply Z.ltb_lt in Hc.
  rewrite !escape_cons_ascii, (IH Ha) by assumption.
  now rewrite append_assoc.
Qed.

Lemma escape_app_ascii_witness :
  allb asciiByte "pkg/" = true /\
  escape ("pkg/" ++ eAcute) = escape "pkg/" ++ escape eAcute.
Proof.
  split; [reflexivity|]. apply (escape_app_ascii "pkg/" eAcute). reflexivity.
Defined.

(** ** The lines each pattern takes *)

Lemma stopsAt_isSpace_token (tok rest : string) :
  tok <> "" -> allb Regexp.notSpace tok = true ->
  stopsAt Regexp.isSpace (tok ++ rest).
Proof.
  destruct tok as [|c tok]; [contradiction|]. intros _ H.
  cbn [allb] in H. apply andb_true_iff in H as [H _].
  cbn. unfold Regexp.notSpace in H. now apply negb_true_iff in H.
Qed.

Lemma spacesThenToken_iff (s tok rest : string) :
  Regexp.spacesThenToken s = Some (tok, rest) <-> spacedToken s tok rest.
Proof.
  unfold Regexp.spacesThenToken, spacedToken. split.
  - pose proof (span_app Regexp.isSpace s) as A1.
    pose proof (span_all Regexp.isSpace s) as B1.
    destruct (span Regexp.isSpace s) as [ws r]. cbn [fst snd] in *.
    destruct (isEmpty ws) eqn:E1; [discriminate|].
    pose proof (span_app Regexp.notSpace r) as A2.
    pose proof (span_all Regexp.notSpace r) as B2.
    pose proof (span_rest Regexp.notSpace r) as C2.
    destruct (span Regexp.notSpace r) as [tok' r']. cbn [fst snd] in *.
    destruct (isEmpty tok') eqn:E2; [discriminate|].
    intros [= <- <-]. exists ws.
    apply isEmpty_false in E1, E2. rewrite A2. repeat split; auto.
  - intros (ws & -> & Hws & Hsp & Htok & Hns & Hrest).
    rewrite (span_exact Regexp.isSpace ws (tok ++ rest) Hsp
               (stopsAt_isSpace_token tok rest Htok Hns)).
    apply isEmpty_false in Hws. rewrite Hws.
    rewrite (span_exact Regexp.notSpace tok rest Hns Hrest).
    apply isEmpty_false in Htok. now rewrite Htok.
Qed.

(** X15. [testRunPattern] takes exactly the lines that are [=== RUN],
    some white space and a name, and yields the name: the bytes up to the
    next white space or the end of the line. *)
Theorem testRunPattern_lines (input n : string) :
  Regexp.testRunPattern input = Some n <->
  exists rest r, input = "=== RUN" ++ r /\ spacedToken r n rest.
Proof.
  unfold Regexp.testRunPattern. split.
  - destruct (stripPrefix "=== RUN" input) as [r|] eqn:P; [|discriminate].
    apply stripPrefix_Some in P.
    destruct (Regexp.spacesThenToken r) as [[m1 rest]|] eqn:T; [|discriminate].
    intros [= <-]. exists rest, r. split; [assumption|].
    now apply spacesThenToken_iff.
  - intros (rest & r & -> & H). rewrite stripPrefix_app.
    apply spacesThenToken_iff in H. now rewrite H.
Qed.

Lemma span_digits_then_s (d rest : string) :
  allb Regexp.isDigitDot d = true ->
  span Regexp.isDigitDot (d ++ "s)" ++ rest) = (d, "s)" ++ rest).
Proof. intros H. now apply span_exact. Qed.

(** X16. [testFinishPattern] takes exactly the lines that are [--- ], one
    of PASS, FAIL and SKIP, a colon, some white space, a name, one space
    and, in parentheses, digits and points followed by [s]; it yields the
    status, the name and the digits and points. *)
Theorem testFinishPattern_lines (input st n d : string) :
  Regexp.testFinishPattern input = Some (st, n, d) <->
  (st = "PASS" \/ st = "FAIL" \/ st = "SKIP") /\
  d <> "" /\ allb Regexp.isDigitDot d = true /\
  exists rest r,
    input = "--- " ++ st ++ ":" ++ r /\
    spacedToken r n (" (" ++ d ++ "s)" ++ rest).
Proof.
  unfold Regexp.testFinishPattern. split.
  - destruct (stripPrefix "--- " input) as [r|] eqn:P; [|discriminate].
    apply stripPrefix_Some in P. subst input.
    destruct (Regexp.passFailSkip r) as [[m1 r1]|] eqn:PF; [|discriminate].
    assert (Hst : (m1 = "PASS" \/ m1 = "FAIL" \/ m1 = "SKIP") /\ r = m1 ++ r1).
    { unfold Regexp.passFailSkip in PF.
      destruct (stripPrefix "PASS" r) eqn:S1.
      { apply stripPrefix_Some in S1. injection PF as <- <-. auto. }
      destruct (stripPrefix "FAIL" r) eqn:S2.
      { apply stripPrefix_Some in S2. injection PF as <- <-. auto. }
      destruct (stripPrefix "SKIP" r) eqn:S3; [|discriminate].
      apply stripPrefix_Some in S3. injection PF as <- <-. auto. }
    destruct Hst as [Hst ->].
    destruct (stripPrefix ":" r1) as [r2|] eqn:P2; [|discriminate].
    apply stripPrefix_Some in P2. subst r1.
    destruct (Regexp.spacesThenToken r2) as [[m2 r3]|] eqn:T; [|discriminate].
    destruct (stripPrefix " (" r3) as [r4|] eqn:P3; [|discriminate].
    apply stripPrefix_Some in P3. subst r3.
    pose proof (span_app Regexp.isDigitDot r4) as A.
    pose proof (span_all Regexp.isDigitDot r4) as B.
    destruct (span Regexp.isDigitDot r4) as [m3 r5]. cbn [fst snd] in *.
    destruct (isEmpty m3) eqn:E; [discriminate|].
    destruct (stripPrefix "s)" r5) as [r6|] eqn:P4; [|discriminate].
    apply stripPrefix_Some in P4. subst r5.
    intros [= <- <- <-].
    apply isEmpty_false in E. repeat split; try assumption.
    exists r6, r2. split; [reflexivity|].
    apply spacesThenToken_iff. now rewrite A.
  - intros (Hst & Hd & Hdd & rest & r & -> & H).
    rewrite stripPrefix_app.
    assert (PF : Regexp.passFailSkip (st ++ ":" ++ r) = Some (st, ":" ++ r))
      by (destruct Hst as [->|[->| ->]]; reflexivity).
    rewrite PF. rewrite stripPrefix_app.
    apply spacesThenToken_iff in H. rewrite H.
    rewrite stripPrefix_app, span_digits_then_s by assumption.
    apply isEmpty_false in Hd. rewrite Hd.
    now rewrite stripPrefix_app.
Qed.

(** X17. [packageFinishPattern] takes exactly the lines that are [ok],
    [FAIL] or [?], some white space and a package name; it yields the name:
    the bytes up to the next white space or the end of the line. *)
Theorem packageFinishPattern_lines (input v n : string) :
  Regexp.packageFinishPattern input = Some (v, n) <->
  (v = "ok" \/ v = "FAIL" \/ v = "?") /\
  exists rest r, input = v ++ r /\ spacedToken r n rest.
Proof.
  unfold Regexp.packageFinishPattern. split.
  - destruct (Regexp.okFailQuestion input) as [[m1 r]|] eqn:O; [|discriminate].
    assert (Hv : (m1 = "ok" \/ m1 = "FAIL" \/ m1 = "?") /\ input = m1 ++ r).
    { unfold Regexp.okFailQuestion in O.
      destruct (stripPrefix "ok" input) eqn:S1.
      { apply stripPrefix_Some in S1. injection O as <- <-. auto. }
      destruct (stripPrefix "FAIL" input) eqn:S2.
      { apply stripPrefix_Some in S2. injection O as <- <-. auto. }
      destruct (stripPrefix "?" input) eqn:S3; [|discriminate].
      apply stripPrefix_Some in S3. injection O as <- <-. auto. }
    destruct Hv as [Hv ->].
    destruct (Regexp.spacesThenToken r) as [[m2 rest]|] eqn:T; [|discriminate].
    intros [= <- <-]. split; [assumption|].
    exists rest, r. split; [reflexivity|]. now apply spacesThenToken_iff.
  - intros (Hv & rest & r & -> & H).
    assert (O : Regexp.okFailQuestion (v ++ r) = Some (v, r))
      by (destruct Hv as [->|[->| ->]]; reflexivity).
    rewrite O. apply spacesThenToken_iff in H. now rewrite H.
Qed.

Lemma stripPrefix_head (a : ascii) (p s r : string) :
  stripPrefix (String a p) s = Some r -> exists t, s = String a t.
Proof. intros H. apply stripPrefix_Some in H. subst. now eexists. Qed.

(** X18. No line has two of the four shapes, so the order in which the
    loop tries the patterns does not matter. *)
Theorem line_shapes_exclusive (input : string) :
  (Regexp.cruftPattern input = true ->
     Regexp.testRunPattern input = None /\
     Regexp.testFinishPattern input = None /\
     Regexp.packageFinishPattern input = None) /\
  (Regexp.testRunPattern input <> None ->
     Regexp.testFinishPattern input = None /\
     Regexp.packageFinishPattern input = None) /\
  (Regexp.testFinishPattern input <> None ->
     Regexp.packageFinishPattern input = None).
Proof.
  assert (HR : Regexp.testRunPattern input <> None ->
               exists t, input = String "=" t).
  { unfold Regexp.testRunPattern.
    destruct (stripPrefix "=== RUN" input) eqn:P; [|congruence].
    intros _. eapply stripPrefix_head; eassumption. }
  assert (HF : Regexp.testFinishPattern input <> None ->
               exists t, input = String "-" t).
  { unfold Regexp.testFinishPattern.
    destruct (stripPrefix "--- " input) eqn:P; [|congruence].
    intros _. eapply stripPrefix_head; eassumption. }
  split; [|split].
  - unfold Regexp.cruftPattern. intros H. apply orb_true_iff in H.
    destruct H as [H|H]; apply String.eqb_eq in H; subst;
      repeat split; reflexivity.
  - intros H. destruct (HR H) as [t ->]. split; reflexivity.
  - intros H. destruct (HF H) as [t ->]. reflexivity.
Qed.

(** ** One test and the lines after its finish line *)

Lemma join_newline (x : string) (l : list string) :
  Strings.Join (x :: l) newline ++ newline = passedThrough (x :: l).
Proof.
  unfold Strings.Join, passedThrough. revert x.
  induction l as [|y l IH]; intros x.
  - cbn. now rewrite append_nil_r.
  - change (String.concat newline (x :: y :: l))
      with (x ++ newline ++ String.concat newline (y :: l)).
    rewrite !append_assoc, IH. cbn [map cat]. now rewrite !append_assoc.
Qed.

Lemma loop_captured (outs : list string) (st : state) (p : ptr) :
  Forall unclassified outs ->
  capturingTest st = Some p -> (p < length (heap st))%nat ->
  exists st',
    loop outs st = Running st' /\
    packageTestBuffer st' = packageTestBuffer st /\
    stdout st' = stdout st /\
    deref (heap st') p =
      mkTestResult (name (deref (heap st) p)) (status (deref (heap st) p))
        (output (deref (heap st) p) ++ outs)%list
        (durationSec (deref (heap st) p)).
Proof.
  intros H. revert st. induction H as [|l outs (Hc & Hr & Hf & Hp) _ IH];
    intros st Hcap Hlt.
  - exists st. cbn [loop]. rewrite app_nil_r. repeat split.
    now destruct (deref (heap st) p).
  - cbn [loop]. unfold step. rewrite Hc, Hr, Hf, Hp, Hcap.
    destruct (IH (mkState (modify (heap st) p (append_output l))
                          (packageTestBuffer st) (Some p) (stdout st)))
      as (st' & Hl & Hb & Ho & Hd).
    + reflexivity.
    + cbn [heap]. now rewrite length_modify.
    + exists st'. split; [exact Hl|]. split; [exact Hb|]. split; [exact Ho|].
      rewrite Hd. cbn [heap]. rewrite deref_modify_eq by assumption.
      cbn. now rewrite <- app_assoc.
Qed.

Lemma step_first_start (l n : string) :
  testStartedLine l n ->
  step initial l = Running (mkState [fresh n] [0%nat] None "").
Proof. intros (Hc & Hr). unfold step. now rewrite Hc, Hr. Qed.

Lemma step_first_finish (l s n d : string) :
  testFinishedLine l s n d ->
  step (mkState [fresh n] [0%nat] None "") l =
  Running (mkState [mkTestResult n s [] (fst (Strconv.ParseFloat32 d))]
                   [0%nat]
                   (if String.eqb s "FAIL" then Some 0%nat else None) "").
Proof.
  intros (Hc & Hr & Hf). unfold step. rewrite Hc, Hr, Hf.
  cbn [findTest heap packageTestBuffer deref lookup list_lookup fresh name].
  now rewrite String.eqb_refl.
Qed.

Lemma flush_failed (n : string) (outs : list string) (dur : spec_float) :
  flush (mkTestResult n "FAIL" outs dur) =
  testStarted n ++ passedThrough outs
  ++ testFailed n (failureMessage (Strings.Join outs newline))
  ++ testFinished n (Strconv.int (Strconv.mul1000 dur)).
Proof.
  unfold flush, testStarted, testFailed, testFinished.
  cbn [name status output durationSec String.eqb Ascii.eqb Bool.eqb].
  destruct outs as [|x outs].
  - cbn [List.length Nat.ltb Nat.leb]. unfold passedThrough.
    cbn [map cat]. now rewrite !append_assoc.
  - cbn [List.length Nat.ltb Nat.leb].
    rewrite <- (join_newline x outs). now rewrite !append_assoc.
Qed.

(** X19. The block of a failed test.  For a start line, the FAIL finish line
    of the same test, any unclassified lines and a package line, the program
    prints one suite with one block: the testStarted line, the lines that
    came after the finish line, as they are and in order, the testFailed
    line with the message drawn from them, and the testFinished line. *)
Theorem failed_test_block
    (runLine finLine pkgLine n d pkg : string) (outs : list string) :
  testStartedLine runLine n ->
  testFinishedLine finLine "FAIL" n d ->
  Forall unclassified outs ->
  packageFinishedLine pkgLine pkg ->
  exists st,
    main ([runLine; finLine] ++ outs ++ [pkgLine]) = Running st /\
    stdout st =
      suiteStarted pkg
      ++ testStarted n ++ passedThrough outs
      ++ testFailed n (failureMessage (Strings.Join outs newline))
      ++ testFinished n (durationMs d)
      ++ suiteFinished pkg.
Proof.
  intros Hrun Hfin Houts (Hc & Hr & Hf & verdict & Hp).
  unfold main. cbn [app loop].
  rewrite (step_first_start runLine n Hrun).
  rewrite (step_first_finish finLine "FAIL" n d Hfin).
  cbn [String.eqb Ascii.eqb Bool.eqb].
  rewrite loop_app.
  destruct (loop_captured outs
              (mkState [mkTestResult n "FAIL" [] (fst (Strconv.ParseFloat32 d))]
                       [0%nat] (Some 0%nat) "") 0%nat Houts eq_refl)
    as (st' & Hl & Hb & Ho & Hd); [cbn; lia|].
  rewrite Hl. cbn [loop]. unfold step. rewrite Hc, Hr, Hf, Hp.
  eexists. split; [reflexivity|]. cbn [stdout].
  rewrite Ho, Hb, flushPackage_blocks. cbn [stdout packageTestBuffer map cat].
  rewrite Hd. cbn [heap deref lookup list_lookup name status output durationSec
                   app].
  rewrite flush_failed. unfold durationMs.
  now rewrite !append_assoc, ?append_nil_r.
Qed.

Lemma failed_test_block_witness :
  testStartedLine "=== RUN   TestA" "TestA" /\
  testFinishedLine "--- FAIL: TestA (0.02s)" "FAIL" "TestA" "0.02" /\
  Forall unclassified ["    a_test.go:8: Error: boom"; demoCapturedLine] /\
  packageFinishedLine demoPackageLine "pkg" /\
  exists st,
    main (["=== RUN   TestA"; "--- FAIL: TestA (0.02s)"]
          ++ ["    a_test.go:8: Error: boom"; demoCapturedLine]
          ++ [demoPackageLine]) = Running st /\
    stdout st =
      suiteStarted "pkg"
      ++ testStarted "TestA"
      ++ passedThrough ["    a_test.go:8: Error: boom"; demoCapturedLine]
      ++ testFailed "TestA"
           (failureMessage
              (Strings.Join ["    a_test.go:8: Error: boom"; demoCapturedLine]
                 newline))
      ++ testFinished "TestA" (durationMs "0.02")
      ++ suiteFinished "pkg".
Proof.
  assert (H : packageFinishedLine demoPackageLine "pkg").
  { unfold packageFinishedLine. repeat split; try (vm_compute; reflexivity).
    exists "ok". vm_compute. reflexivity. }
  split; [repeat split|]. split; [repeat split|].
  split; [repeat constructor|]. split; [exact H|].
  apply (failed_test_block "=== RUN   TestA" "--- FAIL: TestA (0.02s)"
           demoPackageLine "TestA" "0.02" "pkg").
  - repeat split.
  - repeat split.
  - repeat constructor.
  - exact H.
Defined.

(** X20. A package of one test that passed or was skipped.  For a start
    line, the finish line of the same test with a status other than FAIL,
    any unclassified lines and a package line, read from the start, the
    unclassified lines are printed at once: they come out before the suite
    of the package, not inside the block of the test. *)
Theorem passed_test_output_precedes_suite
    (runLine finLine pkgLine s n d pkg : string) (outs : list string) :
  testStartedLine runLine n ->
  testFinishedLine finLine s n d ->
  s <> "FAIL" ->
  Forall unclassified outs ->
  packageFinishedLine pkgLine pkg ->
  exists st,
    main ([runLine; finLine] ++ outs ++ [pkgLine]) = Running st /\
    stdout st =
      passedThrough outs
      ++ suiteStarted pkg
      ++ testBlock durationMs (mkCase n s d)
      ++ suiteFinished pkg.
Proof.
  intros Hrun Hfin Hs Houts (Hc & Hr & Hf & verdict & Hp).
  unfold main. cbn [app loop].
  rewrite (step_first_start runLine n Hrun).
  rewrite (step_first_finish finLine s n d Hfin).
  destruct (String.eqb_spec s "FAIL") as [|_]; [contradiction|].
  rewrite loop_app.
  rewrite (loop_unclassified outs
             (mkState [mkTestResult n s [] (fst (Strconv.ParseFloat32 d))]
                      [0%nat] None "") Houts eq_refl).
  cbn [loop heap packageTestBuffer stdout String.append].
  unfold step. rewrite Hc, Hr, Hf, Hp.
  eexists. split; [reflexivity|]. cbn [stdout heap packageTestBuffer].
  rewrite flushPackage_blocks. cbn [map cat deref lookup list_lookup].
  change (mkTestResult n s [] (fst (Strconv.ParseFloat32 d)))
    with (finishedRecord (mkCase n s d)).
  rewrite flush_finishedRecord.
  now rewrite !append_assoc, ?append_nil_r.
Qed.

Lemma passed_test_output_precedes_suite_witness :
  testStartedLine "=== RUN   TestA" "TestA" /\
  testFinishedLine "--- PASS: TestA (0.02s)" "PASS" "TestA" "0.02" /\
  "PASS" <> "FAIL" /\
  Forall unclassified ["    a_test.go:8: a log line"] /\
  packageFinishedLine demoPackageLine "pkg" /\
  exists st,
    main (["=== RUN   TestA"; "--- PASS: TestA (0.02s)"]
          ++ ["    a_test.go:8: a log line"] ++ [demoPackageLine])
      = Running st /\
    stdout st =
      passedThrough ["    a_test.go:8: a log line"]
      ++ suiteStarted "pkg"
      ++ testBlock durationMs (mkCase "TestA" "PASS" "0.02")
      ++ suiteFinished "pkg".
Proof.
  assert (H : packageFinishedLine demoPackageLine "pkg").
  { unfold packageFinishedLine. repeat split; try (vm_compute; reflexivity).
    exists "ok". vm_compute. reflexivity. }
  split; [repeat split|]. split; [repeat split|].
  split; [discriminate|]. split; [repeat constructor|]. split; [exact H|].
  apply (passed_test_output_precedes_suite "=== RUN   TestA"
           "--- PASS: TestA (0.02s)" demoPackageLine "PASS" "TestA" "0.02" "pkg").
  - repeat split.
  - repeat split.
  - discriminate.
  - repeat constructor.
  - exact H.
Defined.

(** ** The failure message, determined *)

Lemma ErrorMatch_parts (s m : string) :
  ErrorMatch s m <->
  exists ws body rest,
    ErrorMatchParts s ws body rest /\ m = "Error:" ++ ws ++ body.
Proof.
  unfold ErrorMatch, ErrorMatchParts. split.
  - intros (ws & body & rest & -> & -> & H).
    exists ws, body, rest. rewrite !append_assoc. tauto.
  - intros (ws & body & rest & (-> & H) & ->).
    exists ws, body, rest. rewrite !append_assoc. tauto.
Qed.

Lemma errorTail_greedy (k : nat) (r m : string) :
  Regexp.errorTail k r = Some m ->
  exists j, (1 <= j <= k)%nat /\
    m = Utf8.take j r ++ fst (span Regexp.notNewline (Utf8.drop j r)) /\
    fst (span Regexp.notNewline (Utf8.drop j r)) <> "" /\
    forall j', (j < j' <= k)%nat ->
      fst (span Regexp.notNewline (Utf8.drop j' r)) = "".
Proof.
  induction k as [|k IH]; [discriminate|].
  cbn [Regexp.errorTail].
  destruct (isEmpty _) eqn:E.
  - intros H. destruct (IH H) as (j & Hj & Hm & Hb & Hg). exists j.
    split; [lia|]. split; [assumption|]. split; [assumption|].
    intros j' Hj'. destruct (Nat.eq_dec j' (S k)) as [->|Hne].
    + destruct (fst _); [reflexivity|discriminate].
    + apply Hg. lia.
  - intros [= <-]. exists (S k). split; [lia|]. split; [reflexivity|].
    split; [now apply isEmpty_false|]. intros j' Hj'. lia.
Qed.

Lemma app_same_length (a b a' b' : string) :
  a ++ b = a' ++ b' -> String.length a = String.length a' ->
  a = a' /\ b = b'.
Proof.
  revert a'. induction a as [|c a IH]; intros [|c' a']; cbn;
    try discriminate; [auto|].
  intros [= -> E] [= L]. destruct (IH a' E L) as [-> ->]. auto.
Qed.

Lemma errorHere_preferred (s m : string) :
  Regexp.errorHere s = Some m -> PreferredErrorMatch s m.
Proof.
  unfold Regexp.errorHere.
  destruct (stripPrefix "Error:" s) as [r|] eqn:P; [|discriminate].
  apply stripPrefix_Some in P. subst s.
  destruct (Regexp.errorTail _ r) as [m'|] eqn:T; [|discriminate].
  intros [= <-].
  apply errorTail_greedy in T as (j & Hj & -> & Hbody & Hgreedy).
  pose proof (span_app Regexp.isSpace r) as Hr.
  pose proof (span_all Regexp.isSpace r) as Hws.
  pose proof (span_app Regexp.notNewline (Utf8.drop j r)) as Hd.
  assert (Hlen : String.length (Utf8.take j r) = j).
  { rewrite <- Hr. rewrite take_app_le, length_take by lia. reflexivity. }
  exists (Utf8.take j r), (fst (span Regexp.notNewline (Utf8.drop j r))),
         (snd (span Regexp.notNewline (Utf8.drop j r))).
  split; [|split; [reflexivity|]].
  - repeat split.
    + rewrite Hd, take_drop. reflexivity.
    + intros E. rewrite E in Hlen. cbn in Hlen. lia.
    + rewrite <- Hr. rewrite take_app_le by lia. now apply allb_take.
    + assumption.
    + apply span_all.
    + apply span_rest.
  - intros ws' body' rest' (E & Hne & Hsp & Hb & Hnl & Hrest).
    rewrite Hlen.
    assert (Er : r = ws' ++ body' ++ rest').
    { cbn [String.append] in E. now injection E. }
    destruct (Nat.le_gt_cases (String.length ws') j) as [|Hgt]; [assumption|].
    exfalso.
    assert (Hk : (String.length ws' <= String.length (fst (span Regexp.isSpace r)))%nat).
    { rewrite Er. now apply span_longest. }
    pose proof (Hgreedy (String.length ws') ltac:(lia)) as Hempty.
    rewrite Er, drop_app_exact in Hempty.
    rewrite (span_exact Regexp.notNewline body' rest' Hnl Hrest) in Hempty.
    cbn in Hempty. contradiction.
Qed.

Lemma PreferredErrorMatch_ErrorMatch (s m : string) :
  PreferredErrorMatch s m -> ErrorMatch s m.
Proof.
  intros (ws & body & rest & H & -> & _). apply ErrorMatch_parts.
  now exists ws, body, rest.
Qed.

Lemma PreferredErrorMatch_unique (s m m' : string) :
  PreferredErrorMatch s m -> PreferredErrorMatch s m' -> m = m'.
Proof.
  intros (ws & body & rest & H & -> & G)
         (ws' & body' & rest' & H' & -> & G').
  pose proof (G _ _ _ H') as L1. pose proof (G' _ _ _ H) as L2.
  destruct H as (E & _ & _ & _ & Hnl & Hrest).
  destruct H' as (E' & _ & _ & _ & Hnl' & Hrest').
  rewrite E in E'. cbn [String.append] in E'. injection E' as E'.
  apply app_same_length in E' as [-> E']; [|lia].
  pose proof (span_exact Regexp.notNewline body rest Hnl Hrest) as S1.
  pose proof (span_exact Regexp.notNewline body' rest' Hnl' Hrest') as S2.
  rewrite E', S2 in S1. now injection S1 as -> _.
Qed.

Lemma LeftmostErrorMatch_unique (s m m' : string) :
  LeftmostErrorMatch s m -> LeftmostErrorMatch s m' -> m = m'.
Proof.
  intros (pre & post & E & P & F) (pre' & post' & E' & P' & F').
  destruct (Nat.lt_trichotomy (String.length pre) (String.length pre'))
    as [Hlt|[Heq|Hgt]].
  - exfalso. apply (F' pre post m E Hlt).
    now apply PreferredErrorMatch_ErrorMatch.
  - rewrite E in E'. apply app_same_length in E' as [-> ->]; [|assumption].
    eapply PreferredErrorMatch_unique; eassumption.
  - exfalso. apply (F pre' post' m' E' Hgt).
    now apply PreferredErrorMatch_ErrorMatch.
Qed.

Lemma FindString_leftmost (s : string) :
  (Regexp.errorPattern_FindString s <> "" /\
   LeftmostErrorMatch s (Regexp.errorPattern_FindString s))
  \/ (Regexp.errorPattern_FindString s = "" /\ NoErrorMatch s).
Proof.
  induction s as [|c t IH].
  - cbn [Regexp.errorPattern_FindString].
    destruct (Regexp.errorHere "") as [m|] eqn:H; [discriminate H|].
    right. split; [reflexivity|].
    intros pre post m E. destruct pre; [|discriminate].
    simpl in E. subst post. now apply errorHere_complete.
  - cbn [Regexp.errorPattern_FindString].
    destruct (Regexp.errorHere (String c t)) as [m|] eqn:H.
    + left. split; [eapply errorHere_nonempty; eassumption|].
      exists "", (String c t). split; [reflexivity|].
      split; [now apply errorHere_preferred|].
      intros pre' post' m' _ Hlt. simpl in Hlt. lia.
    + destruct IH as [[Hne (pre & post & E & Hm & Hfirst)] | [He Hno]].
      * left. split; [assumption|].
        exists (String c pre), post. split; [simpl; now rewrite E|].
        split; [assumption|].
        intros pre' post' m' E' Hlt.
        destruct pre' as [|c' pre'].
        -- simpl in E'. subst post'. now apply errorHere_complete.
        -- simpl in E'. injection E' as -> E'.
           apply (Hfirst pre' post' m' E'). simpl in Hlt. lia.
      * right. split; [assumption|].
        intros pre' post' m' E'.
        destruct pre' as [|c' pre'].
        -- simpl in E'. subst post'. now apply errorHere_complete.
        -- simpl in E'. injection E' as -> E'. now apply (Hno pre' post' m').
Qed.

(** C6, as the code has it. The line of a failed test carries the escaped
    message, and the message is determined: when the joined output has a
    match of [Error:\s+(.+)$], where the white space after [Error:] may
    hold newlines, it is the match at the leftmost place that has one, and
    there the one whose white space is longest; else it is the first line
    of the output with the white space at both ends trimmed; it is empty
    when there is no output.  The lines of the output hold no newline, as
    the scanner of [main] gives them. *)
Theorem failure_message_determined (test : testResult) :
  status test = "FAIL" ->
  Forall (fun l => allb Regexp.notNewline l = true) (output test) ->
  exists message,
    flush test =
      testStarted (name test)
      ++ match output test with
         | [] => ""
         | _ :: _ => Strings.Join (output test) newline ++ newline
         end
      ++ testFailed (name test) message
      ++ testFinished (name test)
           (Strconv.int (Strconv.mul1000 (durationSec test)))
    /\ ((LeftmostErrorMatch (Strings.Join (output test) newline) message
         /\ forall m',
              LeftmostErrorMatch (Strings.Join (output test) newline) m' ->
              m' = message)
        \/ (NoErrorMatch (Strings.Join (output test) newline)
            /\ message = Strings.TrimSpace (hd "" (output test))))
    /\ (output test = [] -> message = "").
Proof.
  intros Hs Hout.
  exists (failureMessage (Strings.Join (output test) newline)).
  split; [|split].
  - unfold flush, testStarted, testFailed, testFinished. rewrite Hs.
    cbn [String.eqb Ascii.eqb Bool.eqb].
    destruct (output test) as [|x xs]; cbn [List.length Nat.ltb Nat.leb];
      now rewrite !append_assoc.
  - unfold failureMessage.
    destruct (FindString_leftmost (Strings.Join (output test) newline))
      as [[Hne Hm]|[He Hno]].
    + left.
      destruct (Regexp.errorPattern_FindString _) eqn:F; [contradiction|].
      cbn [String.length Nat.eqb]. split; [exact Hm|].
      intros m' Hm'. eapply LeftmostErrorMatch_unique; eassumption.
    + right. split; [assumption|]. rewrite He. cbn [String.length Nat.eqb].
      now rewrite first_line_of_join.
  - intros ->. reflexivity.
Qed.

Lemma failure_message_determined_witness :
  status failedRecord = "FAIL" /\
  Forall (fun l => allb Regexp.notNewline l = true) (output failedRecord) /\
  exists message,
    flush failedRecord =
      testStarted (name failedRecord)
      ++ match output failedRecord with
         | [] => ""
         | _ :: _ => Strings.Join (output failedRecord) newline ++ newline
         end
      ++ testFailed (name failedRecord) message
      ++ testFinished (name failedRecord)
           (Strconv.int (Strconv.mul1000 (durationSec failedRecord)))
    /\ ((LeftmostErrorMatch (Strings.Join (output failedRecord) newline) message
         /\ forall m',
              LeftmostErrorMatch (Strings.Join (output failedRecord) newline) m'
              -> m' = message)
        \/ (NoErrorMatch (Strings.Join (output failedRecord) newline)
            /\ message = Strings.TrimSpace (hd "" (output failedRecord))))
    /\ (output failedRecord = [] -> message = "").
Proof.
  split; [reflexivity|].
  split; [repeat constructor|].
  apply (failure_message_determined failedRecord).
  - reflexivity.
  - repeat constructor.
Defined.

(** C6, as stated, fails: with [Error:] at the end of a line no single
    line has a match, yet the message is not the trimmed first line: the
    white space of the pattern takes the newline and the match ends with
    the next line. *)
Lemma cross_line_message_counterexample :
  status crossLineRecord = "FAIL" /\
  firstLineMatch (output crossLineRecord) = None /\
  lineMessage (output crossLineRecord) = "Error:" /\
  failureMessage (Strings.Join (output crossLineRecord) newline)
    = "Error:" ++ newline ++ "  next line" /\
  flush crossLineRecord =
    testStarted "TestA"
    ++ Strings.Join (output crossLineRecord) newline ++ newline
    ++ testFailed "TestA" ("Error:" ++ newline ++ "  next line")
    ++ testFinished "TestA" 0 /\
  flush crossLineRecord <>
    testStarted "TestA"
    ++ Strings.Join (output crossLineRecord) newline ++ newline
    ++ testFailed "TestA" (lineMessage (output crossLineRecord))
    ++ testFinished "TestA" 0.
Proof.
  split; [reflexivity|]. split; [vm_compute; reflexivity|].
  split; [vm_compute; reflexivity|]. split; [vm_compute; reflexivity|].
  split; [vm_compute; reflexivity|].
  vm_compute. discriminate.
Qed.
